(** * OPT / STEM-OPT unemployment tracker: the calculation engine

    A shallow embedding of [src/utils/calculator.ts] and the properties of
    its span clamping, merging and day accounting.

    Modelling conventions.

    - A JavaScript [Date] is its time value: an integer number of
      milliseconds.  The calendar is read in one fixed-offset time zone
      (the source's own comment says "midnight UTC"), so every calendar
      day is exactly [millisecondsInDay] milliseconds long and day [d]
      starts at time value [d * millisecondsInDay].  Invalid dates (time
      value NaN) are outside the model: the engine requires that dates
      arrive as valid date values.
    - The functions imported from date-fns ([startOfDay],
      [differenceInCalendarDays], [isAfter], [isBefore], [max], [min]) are
      third-party code; they are modelled from the library's documented
      behaviour, in module [DateFns].
    - Day counts and limits are JavaScript numbers holding integers; they
      are modelled in [Z].  The percentage of a period summary,
      [(usedDays / limitDays) * 100], is a binary64 number computed with
      the kernel's IEEE 754 operations (module [Binary64]).  The local
      quotient [determineStatus] compares with 80 is modelled as an exact
      rational in [Q]; the same comparison in binary64 arithmetic is
      modelled too and shown to give the same verdict on every result of
      the entry point.
    - A JavaScript string is the list of its UTF-16 code units.
    - [new Date()] reads the clock: the clock reading is an explicit
      argument [now] of the entry point. *)

From Stdlib Require Import ZArith QArith List Bool Lia String Ascii.
From Stdlib Require Import Sorting.Sorted Sorting.Permutation.
From Stdlib Require Import Floats.PrimFloat.
From Stdlib Require Import DecimalString.
Import ListNotations.
Local Open Scope Z_scope.

(** ** Dates and the date-fns functions the calculator imports *)

Definition Date : Type := Z.

Module DateFns.

Definition millisecondsInDay : Z := 86400000.

(** [Math.round]: the nearest integer, halves rounded up, of the
    quotient [x / d] for a positive [d]. *)
Definition roundDiv (x d : Z) : Z := (2 * x + d) / (2 * d).

(** [startOfDay(date)]: the same calendar day at 00:00:00.000. *)
Definition startOfDay (date : Date) : Date :=
  (date / millisecondsInDay) * millisecondsInDay.

(** [differenceInCalendarDays(later, earlier)]: both arguments are taken
    to the start of their day and the difference of the two time values
    is divided by the length of a day and rounded. *)
Definition differenceInCalendarDays (laterDate earlierDate : Date) : Z :=
  roundDiv (startOfDay laterDate - startOfDay earlierDate) millisecondsInDay.

Definition isAfter (date dateToCompare : Date) : bool := dateToCompare <? date.
Definition isBefore (date dateToCompare : Date) : bool := date <? dateToCompare.

(** [max(dates)] and [min(dates)] on an array literal of two dates. *)
Definition maxDate (a b : Date) : Date := Z.max a b.
Definition minDate (a b : Date) : Date := Z.min a b.

End DateFns.
Import DateFns.

(** The index of the calendar day a date falls on, and the dates that are
    already at the start of their day. *)
Definition dayOf (d : Date) : Z := d / millisecondsInDay.
Definition isNormalized (d : Date) : Prop := startOfDay d = d.

(** ** The types of [src/types]

    calculator.ts imports its types from [../types], whose declarations
    are not among the sources at hand.  Each record carries the fields the
    calculator reads or writes. *)

(** Modelled from the spec: the phase name of an eligibility period
    ([eadPeriod.type]) is one of "OPT" and "STEM". *)
Inductive Phase : Type := OPT | STEM.

(** The three status strings [determineStatus] returns. *)
Inductive ComplianceStatus : Type := normal | warning | violation.

Module EADPeriod.
(** Modelled from the spec: an eligibility period is a named phase with an
    inclusive start date and end date; calculator.ts reads [type],
    [startDate] and [endDate]. *)
Record t : Type := mk { type : Phase; startDate : Date; endDate : Date }.
End EADPeriod.

Module EmploymentSpan.
(** Modelled from the spec: an employment interval is an employer label, an
    inclusive start date and an optional end date (absent when the job is
    ongoing); calculator.ts reads [employerName], [startDate] and
    [endDate].  The label is a JavaScript string: the list of its UTF-16
    code units. *)
Record t : Type :=
  mk { employerName : list N; startDate : Date; endDate : option Date }.
End EmploymentSpan.

Module MergedSpan.
(** Modelled from the spec: a clamped interval is a start date and an end
    date; these are the two fields of the object literals calculator.ts
    builds. *)
Record t : Type := mk { startDate : Date; endDate : Date }.
End MergedSpan.

(** The fields of the object literals [calculateUnemploymentForPeriod]
    returns. *)
Record UnemploymentSummary : Type := mkSummary {
  phase : Phase;
  usedDays : Z;
  remainingDays : Z;
  limitDays : Z;
  percentage : float
}.

(** The fields of the object literal [calculateUnemployment] returns. *)
Record CalculationResult : Type := mkResult {
  phase1 : UnemploymentSummary;
  phase2 : option UnemploymentSummary;
  totalUsedDays : Z;
  totalAllowedDays : Z;
  status : ComplianceStatus;
  statusMessage : string
}.

(** ** JavaScript built-ins used by the calculator *)

Module Js.

(** [Array.prototype.sort(compareFn)] is a stable sort: with a consistent
    comparator the result is the one ordered arrangement of the array
    that keeps elements comparing equal in their original order.
    Insertion from the right computes that arrangement. *)
Fixpoint insertOrdered {A : Type} (compareFn : A -> A -> Z) (x : A) (l : list A) : list A :=
  match l with
  | [] => [x]
  | y :: l' =>
      if compareFn x y <=? 0 then x :: y :: l'
      else y :: insertOrdered compareFn x l'
  end.

Definition sort {A : Type} (compareFn : A -> A -> Z) (l : list A) : list A :=
  fold_right (insertOrdered compareFn) [] l.

(** [.filter(x => x !== null)] on an array of nullable values. *)
Fixpoint filterNonNull {A : Type} (l : list (option A)) : list A :=
  match l with
  | [] => []
  | Some x :: l' => x :: filterNonNull l'
  | None :: l' => filterNonNull l'
  end.

(** [Array.prototype.reduce(callback, initial)]. *)
Definition reduce {A B : Type} (callback : B -> A -> B) (initial : B) (l : list A) : B :=
  fold_left callback l initial.

(** The string of a literal whose characters are all below U+0100. *)
Definition str (s : string) : list N := map N_of_ascii (list_ascii_of_string s).

(** [!s] and [s === ''] on a string. *)
Definition isEmpty (s : list N) : bool :=
  match s with
  | [] => true
  | _ :: _ => false
  end.

(** The code units [String.prototype.trim] removes: ECMAScript's WhiteSpace
    (TAB, VT, FF, ZWNBSP and the space separators of Unicode: SP, NBSP,
    U+1680, U+2000 to U+200A, U+202F, U+205F, U+3000) and LineTerminator
    (LF, CR, U+2028, U+2029). *)
Definition isWhiteSpace (c : N) : bool :=
  ((9 <=? c) && (c <=? 13) || (c =? 32) || (c =? 160) || (c =? 5760)
   || (8192 <=? c) && (c <=? 8202) || (c =? 8232) || (c =? 8233)
   || (c =? 8239) || (c =? 8287) || (c =? 12288) || (c =? 65279))%N.

Fixpoint trimStart (s : list N) : list N :=
  match s with
  | c :: s' => if isWhiteSpace c then trimStart s' else s
  | [] => []
  end.

(** [String.prototype.trim]: white space removed at both ends. *)
Definition trim (s : list N) : list N :=
  rev (trimStart (rev (trimStart s))).

(** A [Date] object is truthy, so [!date] is false. *)
Definition notDate (d : Date) : bool := false.

End Js.

(** ** JavaScript numbers in binary64 arithmetic

    JavaScript divides and multiplies in IEEE binary64.  [ofZ] is the
    number of an integer; [percentageAtLeast80] is the test
    [(totalUsedDays / totalAllowedDays) * 100 >= 80] of [determineStatus]
    in that arithmetic. *)

Module Binary64.

(** The binary64 number of an integer (exact below 2^53). *)
Fixpoint ofPositive (p : positive) : float :=
  match p with
  | xH => 1%float
  | xO q => (2 * ofPositive q)%float
  | xI q => (2 * ofPositive q + 1)%float
  end.

Definition ofZ (n : Z) : float :=
  match n with
  | Z0 => 0%float
  | Zpos p => ofPositive p
  | Zneg p => (- ofPositive p)%float
  end.

Definition percentageAtLeast80 (totalUsedDays totalAllowedDays : Z) : bool :=
  PrimFloat.leb (ofZ 80)
    (PrimFloat.mul (PrimFloat.div (ofZ totalUsedDays) (ofZ totalAllowedDays)) (ofZ 100)).

(** The test agrees with the integer comparison on every used-day count
    from 0 to [allowed]. *)
Definition agreesUpTo (allowed : Z) : bool :=
  forallb
    (fun k =>
       Bool.eqb (percentageAtLeast80 (Z.of_nat k) allowed)
         (4 * allowed <=? 5 * Z.of_nat k))
    (seq 0 (S (Z.to_nat allowed))).

End Binary64.

(** ** calculator.ts *)

Definition OPT_UNEMPLOYMENT_LIMIT : Z := 90.
Definition TOTAL_UNEMPLOYMENT_LIMIT_WITH_STEM : Z := 150.

Definition normalizeDate (date : Date) : Date := startOfDay date.

(** [referenceDate ?? new Date()], normalized; [now] is the clock. *)
Definition getNormalizedReferenceDate (now : Date) (referenceDate : option Date) : Date :=
  normalizeDate (match referenceDate with Some r => r | None => now end).

Definition calculateDaysBetween (start end_ : Date) : Z :=
  differenceInCalendarDays (normalizeDate end_) (normalizeDate start) + 1.

(** The end of an employment span as the clamper resolves it: an ongoing
    span ends at the reference date, which is taken as it is. *)
Definition resolvedEnd (span : EmploymentSpan.t) (referenceDate : Date) : Date :=
  match EmploymentSpan.endDate span with
  | Some e => normalizeDate e
  | None => referenceDate
  end.

Definition clampSpanToEAD (span : EmploymentSpan.t) (eadPeriod : EADPeriod.t)
    (referenceDate : Date) : option MergedSpan.t :=
  let spanStart := normalizeDate (EmploymentSpan.startDate span) in
  let spanEnd := resolvedEnd span referenceDate in
  let eadStart := normalizeDate (EADPeriod.startDate eadPeriod) in
  let eadEnd := normalizeDate (EADPeriod.endDate eadPeriod) in
  if isAfter spanStart eadEnd || isBefore spanEnd eadStart then None
  else Some (MergedSpan.mk (maxDate spanStart eadStart) (minDate spanEnd eadEnd)).

(** The loop of [mergeOverlappingSpans]: [merged] is the output array so
    far, [current] the accumulator, [rest] the elements [spans[i..]] still
    to visit. *)
Fixpoint mergeLoop (merged : list MergedSpan.t) (current : MergedSpan.t)
    (rest : list MergedSpan.t) : list MergedSpan.t :=
  match rest with
  | [] => merged ++ [current]
  | next :: rest' =>
      let daysBetween :=
        differenceInCalendarDays (MergedSpan.startDate next) (MergedSpan.endDate current) in
      if daysBetween <=? 1 then
        mergeLoop merged
          (MergedSpan.mk (MergedSpan.startDate current)
             (maxDate (MergedSpan.endDate current) (MergedSpan.endDate next)))
          rest'
      else mergeLoop (merged ++ [current]) next rest'
  end.

Definition mergeOverlappingSpans (spans : list MergedSpan.t) : list MergedSpan.t :=
  match spans with
  | [] => []
  | first :: rest => mergeLoop [] first rest
  end.

(** The comparator [calculateEmployedDays] sorts with. *)
Definition compareByStart (a b : MergedSpan.t) : Z :=
  differenceInCalendarDays (MergedSpan.startDate a) (MergedSpan.startDate b).

(** The sort and merge steps of [calculateEmployedDays]: what the design
    calls the Span Merger. *)
Definition sortAndMerge (clampedSpans : list MergedSpan.t) : list MergedSpan.t :=
  mergeOverlappingSpans (Js.sort compareByStart clampedSpans).

Definition calculateEmployedDays (employmentSpans : list EmploymentSpan.t)
    (eadPeriod : EADPeriod.t) (referenceDate : Date) : Z :=
  let clampedSpans :=
    Js.filterNonNull
      (map (fun span => clampSpanToEAD span eadPeriod referenceDate) employmentSpans) in
  let mergedSpans := sortAndMerge clampedSpans in
  Js.reduce
    (fun total span =>
       total + calculateDaysBetween (MergedSpan.startDate span) (MergedSpan.endDate span))
    0 mergedSpans.

(** The period [calculateUnemploymentForPeriod] accounts over: the period
    from its normalized start to the earlier of its end and the reference
    date. *)
Definition effectiveEnd (eadPeriod : EADPeriod.t) (referenceDate : Date) : Date :=
  minDate (normalizeDate (EADPeriod.endDate eadPeriod)) referenceDate.

Definition adjustedPeriod (eadPeriod : EADPeriod.t) (referenceDate : Date) : EADPeriod.t :=
  EADPeriod.mk (EADPeriod.type eadPeriod)
    (normalizeDate (EADPeriod.startDate eadPeriod))
    (effectiveEnd eadPeriod referenceDate).

Definition calculateUnemploymentForPeriod (employmentSpans : list EmploymentSpan.t)
    (eadPeriod : EADPeriod.t) (limitDays : Z) (referenceDate : Date) : UnemploymentSummary :=
  let eadStart := normalizeDate (EADPeriod.startDate eadPeriod) in
  if isBefore (effectiveEnd eadPeriod referenceDate) eadStart then
    mkSummary (EADPeriod.type eadPeriod) 0 limitDays limitDays (Binary64.ofZ 0)
  else
    let adjusted := adjustedPeriod eadPeriod referenceDate in
    let totalDaysInPeriod :=
      calculateDaysBetween (EADPeriod.startDate adjusted) (EADPeriod.endDate adjusted) in
    let employedDays := calculateEmployedDays employmentSpans adjusted referenceDate in
    let usedDays := Z.max 0 (totalDaysInPeriod - employedDays) in
    let remainingDays := Z.max 0 (limitDays - usedDays) in
    let percentage :=
      if 0 <? limitDays then
        PrimFloat.mul (PrimFloat.div (Binary64.ofZ usedDays) (Binary64.ofZ limitDays))
          (Binary64.ofZ 100)
      else if 0 <? usedDays then Binary64.ofZ 100
      else Binary64.ofZ 0 in
    mkSummary (EADPeriod.type eadPeriod) usedDays remainingDays limitDays percentage.

Definition determineStatus (totalUsedDays totalAllowedDays : Z) : ComplianceStatus * string :=
  if totalAllowedDays <? totalUsedDays then
    (violation,
     "You have exceeded the allowed unemployment days. You may be out of status. Please consult your international student office immediately."%string)
  else
    let percentage :=
      (inject_Z totalUsedDays / inject_Z totalAllowedDays * inject_Z 100)%Q in
    if Qle_bool (inject_Z 80) percentage then
      (warning,
       "You are approaching the unemployment limit. Please find employment soon to maintain status."%string)
    else
      (normal, "Your unemployment days are within the allowed limit."%string).

(** The entry point.  [now] is what [new Date()] would return; [options]
    is [options?.referenceDate]. *)
Definition calculateUnemployment (now : Date) (optPeriod stemPeriod : option EADPeriod.t)
    (employmentSpans : list EmploymentSpan.t) (options : option Date)
    : option CalculationResult :=
  match optPeriod with
  | None => None
  | Some optPeriod =>
      let referenceDate := getNormalizedReferenceDate now options in
      let phase1 :=
        calculateUnemploymentForPeriod employmentSpans optPeriod
          OPT_UNEMPLOYMENT_LIMIT referenceDate in
      let '(phase2, totalUsedDays, totalAllowedDays) :=
        match stemPeriod with
        | Some stemPeriod =>
            let availableStemDays :=
              Z.max 0 (TOTAL_UNEMPLOYMENT_LIMIT_WITH_STEM - usedDays phase1) in
            let phase2 :=
              calculateUnemploymentForPeriod employmentSpans stemPeriod
                availableStemDays referenceDate in
            (Some phase2, usedDays phase1 + usedDays phase2,
             TOTAL_UNEMPLOYMENT_LIMIT_WITH_STEM)
        | None => (None, usedDays phase1, OPT_UNEMPLOYMENT_LIMIT)
        end in
      let '(status, message) := determineStatus totalUsedDays totalAllowedDays in
      Some (mkResult phase1 phase2 totalUsedDays totalAllowedDays status message)
  end.

Definition validateEmploymentSpan (span : EmploymentSpan.t) : option string :=
  if Js.isEmpty (EmploymentSpan.employerName span)
     || Js.isEmpty (Js.trim (EmploymentSpan.employerName span))
  then Some "Employer name is required"%string
  else if Js.notDate (EmploymentSpan.startDate span)
  then Some "Start date is required"%string
  else
    match EmploymentSpan.endDate span with
    | Some e =>
        if isBefore e (EmploymentSpan.startDate span)
        then Some "End date must be after start date"%string
        else None
    | None => None
    end.

Definition validateEADPeriod (period : EADPeriod.t) : option string :=
  if Js.notDate (EADPeriod.startDate period) then Some "Start date is required"%string
  else if Js.notDate (EADPeriod.endDate period) then Some "End date is required"%string
  else if isBefore (EADPeriod.endDate period) (EADPeriod.startDate period)
  then Some "End date must be after start date"%string
  else None.

(** ** Vocabulary of the properties *)

Definition startDay (m : MergedSpan.t) : Z := dayOf (MergedSpan.startDate m).
Definition endDay (m : MergedSpan.t) : Z := dayOf (MergedSpan.endDate m).

(** A clamped interval is well formed when it does not end before it
    starts, and normalized when both ends are at the start of their day. *)
Definition wellFormed (m : MergedSpan.t) : Prop :=
  MergedSpan.startDate m <= MergedSpan.endDate m.

Definition normalizedSpan (m : MergedSpan.t) : Prop :=
  isNormalized (MergedSpan.startDate m) /\ isNormalized (MergedSpan.endDate m).

(** The calendar days of an interval, and of a list of intervals. *)
Definition covers (m : MergedSpan.t) (d : Z) : Prop := startDay m <= d <= endDay m.
Definition covered (l : list MergedSpan.t) (d : Z) : Prop :=
  exists m, In m l /\ covers m d.

(** The day gap the merger looks at: from the end of [prev] to the start
    of [next]. *)
Definition gap (prev next : MergedSpan.t) : Z :=
  differenceInCalendarDays (MergedSpan.startDate next) (MergedSpan.endDate prev).

(** What the merger does to its accumulator when it coalesces. *)
Definition extend (current next : MergedSpan.t) : MergedSpan.t :=
  MergedSpan.mk (MergedSpan.startDate current)
    (maxDate (MergedSpan.endDate current) (MergedSpan.endDate next)).

(** Ascending by start day. *)
Definition SortedByStart (l : list MergedSpan.t) : Prop :=
  Sorted (fun a b => startDay a <= startDay b) l.

(** Every interval starts more than one day after the end of the one
    before it: for well-formed intervals the list is ascending, disjoint
    and non-adjacent. *)
Definition Separated (l : list MergedSpan.t) : Prop :=
  Sorted (fun a b => 1 < gap a b) l.

(** The sum [calculateEmployedDays] takes over the merged intervals. *)
Definition totalDays (l : list MergedSpan.t) : Z :=
  Js.reduce
    (fun total span =>
       total + calculateDaysBetween (MergedSpan.startDate span) (MergedSpan.endDate span))
    0 l.

(** A validated employment span and a validated period: the validator
    returns no message. *)
Definition validSpan (span : EmploymentSpan.t) : Prop := validateEmploymentSpan span = None.
Definition validPeriod (period : EADPeriod.t) : Prop := validateEADPeriod period = None.

(** The employment span, with its end resolved, does not end before it
    starts. *)
Definition resolvedWellFormed (span : EmploymentSpan.t) (referenceDate : Date) : Prop :=
  normalizeDate (EmploymentSpan.startDate span) <= resolvedEnd span referenceDate.

(** The day count of the window the accountant works on. *)
Definition windowDays (eadPeriod : EADPeriod.t) (referenceDate : Date) : Z :=
  calculateDaysBetween (normalizeDate (EADPeriod.startDate eadPeriod))
    (effectiveEnd eadPeriod referenceDate).

(** ** components/InputForm.vue *)

(** The string of an integer in a template literal: its decimal digits,
    with a minus sign when negative. *)
Definition numberToString (n : Z) : string := NilZero.string_of_int (Z.to_int n).

(** [getEmploymentDuration]; [now] is what [new Date()] returns. *)
Definition getEmploymentDuration (now : Date) (span : EmploymentSpan.t) : string :=
  let start := startOfDay (EmploymentSpan.startDate span) in
  let end_ :=
    match EmploymentSpan.endDate span with
    | Some e => startOfDay e
    | None => startOfDay now
    end in
  let totalDays := differenceInCalendarDays end_ start + 1 in
  if totalDays <=? 0 then "0 days"%string
  else (numberToString totalDays ++ " day"
        ++ (if (totalDays =? 1)%Z then "" else "s"))%string.

(** ** components/base/BaseDatePicker.vue *)

Module DatePicker.

(** The props the functions below read. *)
Record Props : Type := mkProps {
  disabled : bool;
  min : option Date;
  max : option Date
}.

(** The refs the functions below write. *)
Record State : Type := mkState {
  isOpen : bool;
  displayMonth : Date
}.

(** What a handler emits: nothing, or ['update:modelValue'] with a date or
    null. *)
Inductive Emitted : Type :=
| Nothing
| UpdateModelValue (value : option Date).

Definition isDayDisabled (props : Props) (day : Date) : bool :=
  if match min props with
     | Some m => isBefore day (startOfDay m)
     | None => false
     end
  then true
  else if match max props with
          | Some m => isAfter day (startOfDay m)
          | None => false
          end
  then true
  else false.

Definition closePicker (st : State) : State := mkState false (displayMonth st).

Definition selectDate (props : Props) (st : State) (day : Date) : State * Emitted :=
  if disabled props || isDayDisabled props day then (st, Nothing)
  else (closePicker (mkState (isOpen st) (startOfDay day)),
        UpdateModelValue (Some (startOfDay day))).

End DatePicker.

(** ** The employment list read day by day *)

(** The employment span, with its end resolved at the reference date,
    covers calendar day [d]. *)
Definition spanCoversDay (referenceDate : Date) (span : EmploymentSpan.t) (d : Z) : bool :=
  (dayOf (EmploymentSpan.startDate span) <=? d)
  && (d <=? dayOf (resolvedEnd span referenceDate)).

(** Some span of the list covers day [d]. *)
Definition employedOn (spans : list EmploymentSpan.t) (referenceDate : Date) (d : Z) : bool :=
  existsb (fun span => spanCoversDay referenceDate span d) spans.

(** The number of days among [lo], [lo + 1], ..., [lo + n - 1] on which
    [f] holds. *)
Fixpoint countDays (f : Z -> bool) (lo : Z) (n : nat) : Z :=
  match n with
  | O => 0
  | S k => (if f lo then 1 else 0) + countDays f (lo + 1) k
  end.

(** The number of days from day [lo] to day [hi], none when [hi < lo]. *)
Definition daysInRange (lo hi : Z) : nat := Z.to_nat (hi - lo + 1).

(** The same period and the same span at the start of their days. *)
Definition normalizePeriod (period : EADPeriod.t) : EADPeriod.t :=
  EADPeriod.mk (EADPeriod.type period)
    (normalizeDate (EADPeriod.startDate period))
    (normalizeDate (EADPeriod.endDate period)).

Definition normalizeSpan (span : EmploymentSpan.t) : EmploymentSpan.t :=
  EmploymentSpan.mk (EmploymentSpan.employerName span)
    (normalizeDate (EmploymentSpan.startDate span))
    (option_map normalizeDate (EmploymentSpan.endDate span)).

(** Every code unit of the label is white space (so is the empty
    label). *)
Definition blank (s : list N) : bool := forallb Js.isWhiteSpace s.

(** ** The order of the binary64 percentage *)

(** The percentage [(used / limit) * 100] of the accountant is not
    negative, and is at least 100 exactly when [limit <= used]. *)
Definition percentageOrdered (limit used : Z) : bool :=
  let percentage :=
    PrimFloat.mul (PrimFloat.div (Binary64.ofZ used) (Binary64.ofZ limit))
      (Binary64.ofZ 100) in
  PrimFloat.leb 0 percentage
  && Bool.eqb (PrimFloat.leb 100 percentage) (limit <=? used).

(** [f] holds of [lo], [lo + 1], ..., [lo + n - 1]. *)
Fixpoint forallFrom (f : Z -> bool) (lo : Z) (n : nat) : bool :=
  match n with
  | O => true
  | S k => f lo && forallFrom f (lo + 1) k
  end.

(** The limits the entry point can pass run from 0 to 150; used days are
    checked up to [maxCheckedUsedDays]. *)
Definition maxCheckedUsedDays : Z := 10000.

(** ** Sample data

    Day 19509 is 2023-06-01 and day 19874 is 2024-05-31. *)

Module Sample.

Definition day (n : Z) : Date := n * millisecondsInDay.

Definition opt : EADPeriod.t := EADPeriod.mk OPT (day 19509) (day 19874).
Definition stem : EADPeriod.t := EADPeriod.mk STEM (day 19875) (day 20604).

Definition job (first last : Z) : EmploymentSpan.t :=
  EmploymentSpan.mk (Js.str "Acme") (day first) (Some (day last)).
Definition ongoing (first : Z) : EmploymentSpan.t :=
  EmploymentSpan.mk (Js.str "Acme") (day first) None.

Definition span (first last : Z) : MergedSpan.t := MergedSpan.mk (day first) (day last).

End Sample.

(** ** Facts about days *)

Lemma msPerDay_pos : 0 < millisecondsInDay.
Proof. reflexivity. Qed.

Lemma roundDiv_exact (k d : Z) : 0 < d -> roundDiv (k * d) d = k.
Proof.
  intros Hd. unfold roundDiv.
  symmetry. apply Z.div_unique with (r := d); nia.
Qed.

Lemma startOfDay_dayOf (t : Date) : startOfDay t = dayOf t * millisecondsInDay.
Proof. reflexivity. Qed.

Lemma dayOf_startOfDay (t : Date) : dayOf (startOfDay t) = dayOf t.
Proof.
  unfold dayOf, startOfDay. apply Z.div_mul. discriminate.
Qed.

Lemma startOfDay_idem (t : Date) : startOfDay (startOfDay t) = startOfDay t.
Proof.
  rewrite (startOfDay_dayOf (startOfDay t)), dayOf_startOfDay. reflexivity.
Qed.

Lemma normalizeDate_normalized (t : Date) : isNormalized (normalizeDate t).
Proof. apply startOfDay_idem. Qed.

Lemma differenceInCalendarDays_dayOf (a b : Date) :
  differenceInCalendarDays a b = dayOf a - dayOf b.
Proof.
  unfold differenceInCalendarDays. rewrite !startOfDay_dayOf.
  rewrite <- Z.mul_sub_distr_r. apply roundDiv_exact, msPerDay_pos.
Qed.

Lemma calculateDaysBetween_dayOf (s e : Date) :
  calculateDaysBetween s e = dayOf e - dayOf s + 1.
Proof.
  unfold calculateDaysBetween, normalizeDate.
  rewrite differenceInCalendarDays_dayOf, !dayOf_startOfDay. reflexivity.
Qed.

Lemma dayOf_mono (a b : Date) : a <= b -> dayOf a <= dayOf b.
Proof. intros H. apply Z.div_le_mono; [reflexivity | exact H]. Qed.

Lemma startOfDay_le (t : Date) : startOfDay t <= t.
Proof.
  unfold startOfDay. rewrite Z.mul_comm.
  apply Z.mul_div_le. reflexivity.
Qed.

Lemma startOfDay_mono (a b : Date) : a <= b -> startOfDay a <= startOfDay b.
Proof.
  intros H. rewrite !startOfDay_dayOf.
  apply Z.mul_le_mono_nonneg_r; [discriminate | apply dayOf_mono, H].
Qed.

(** Against a normalized date, comparing time values and comparing days
    agree. *)
Lemma lt_normalized_dayOf (a b : Date) :
  isNormalized b -> (a < b <-> dayOf a < dayOf b).
Proof.
  unfold isNormalized. intros Hb. rewrite <- Hb at 1.
  rewrite startOfDay_dayOf. unfold dayOf.
  pose proof msPerDay_pos as Hpos.
  pose proof (Z.div_mod a millisecondsInDay ltac:(lia)) as Ha.
  pose proof (Z.mod_pos_bound a millisecondsInDay Hpos) as Hm.
  split; intros H; nia.
Qed.

Lemma le_normalized_dayOf (a b : Date) :
  isNormalized a -> (a <= b <-> dayOf a <= dayOf b).
Proof.
  intros Ha. pose proof (lt_normalized_dayOf b a Ha). lia.
Qed.

Lemma normalized_dayOf_inj (a b : Date) :
  isNormalized a -> isNormalized b -> dayOf a = dayOf b -> a = b.
Proof.
  unfold isNormalized. intros Ha Hb H.
  rewrite <- Ha, <- Hb, !startOfDay_dayOf, H. reflexivity.
Qed.

Lemma dayOf_max (a b : Date) : dayOf (Z.max a b) = Z.max (dayOf a) (dayOf b).
Proof.
  destruct (Z.le_ge_cases a b) as [H | H]; pose proof (dayOf_mono _ _ H).
  - rewrite !Z.max_r by assumption. reflexivity.
  - rewrite !Z.max_l by assumption. reflexivity.
Qed.

Lemma dayOf_min (a b : Date) : dayOf (Z.min a b) = Z.min (dayOf a) (dayOf b).
Proof.
  destruct (Z.le_ge_cases a b) as [H | H]; pose proof (dayOf_mono _ _ H).
  - rewrite !Z.min_l by assumption. reflexivity.
  - rewrite !Z.min_r by assumption. reflexivity.
Qed.

Lemma normalized_max (a b : Date) :
  isNormalized a -> isNormalized b -> isNormalized (Z.max a b).
Proof. intros Ha Hb. destruct (Z.max_spec a b) as [[_ ->] | [_ ->]]; assumption. Qed.

Lemma normalized_min (a b : Date) :
  isNormalized a -> isNormalized b -> isNormalized (Z.min a b).
Proof. intros Ha Hb. destruct (Z.min_spec a b) as [[_ ->] | [_ ->]]; assumption. Qed.

(** ** The stable sort *)

Section SortFacts.

Context {A : Type} (compareFn : A -> A -> Z).

Lemma insertOrdered_perm (x : A) (l : list A) :
  Permutation (Js.insertOrdered compareFn x l) (x :: l).
Proof.
  induction l as [| y l IH]; simpl.
  - reflexivity.
  - destruct (compareFn x y <=? 0).
    + reflexivity.
    + rewrite IH. apply perm_swap.
Qed.

Lemma sort_cons (x : A) (l : list A) :
  Js.sort compareFn (x :: l) = Js.insertOrdered compareFn x (Js.sort compareFn l).
Proof. reflexivity. Qed.

Lemma sort_perm (l : list A) : Permutation (Js.sort compareFn l) l.
Proof.
  induction l as [| x l IH].
  - constructor.
  - rewrite sort_cons, insertOrdered_perm. constructor. exact IH.
Qed.

(** A list whose neighbours are already in order is left as it is. *)
Lemma sort_sorted_id (l : list A) :
  Sorted (fun a b => compareFn a b <= 0) l -> Js.sort compareFn l = l.
Proof.
  induction 1 as [| x l Hs IH Hhd].
  - reflexivity.
  - rewrite sort_cons, IH.
    destruct Hhd as [| y l Hxy]; simpl.
    + reflexivity.
    + apply Z.leb_le in Hxy. rewrite Hxy. reflexivity.
Qed.

End SortFacts.

Lemma compareByStart_days (a b : MergedSpan.t) :
  compareByStart a b = startDay a - startDay b.
Proof. apply differenceInCalendarDays_dayOf. Qed.

Lemma insertOrdered_sorted (x : MergedSpan.t) (l : list MergedSpan.t) :
  SortedByStart l -> SortedByStart (Js.insertOrdered compareByStart x l).
Proof.
  unfold SortedByStart.
  induction 1 as [| y l Hs IH Hhd]; simpl.
  - repeat constructor.
  - destruct (Z.leb_spec (compareByStart x y) 0) as [Hle | Hgt];
      rewrite compareByStart_days in *.
    + constructor; [constructor; assumption |]. constructor. lia.
    + constructor; [exact IH |].
      destruct Hhd as [| z l Hyz]; simpl.
      * constructor. lia.
      * destruct (compareByStart x z <=? 0); constructor; lia.
Qed.

Lemma sort_sorted (l : list MergedSpan.t) : SortedByStart (Js.sort compareByStart l).
Proof.
  induction l as [| x l IH].
  - constructor.
  - rewrite sort_cons. apply insertOrdered_sorted, IH.
Qed.

Lemma SortedByStart_strong (x : MergedSpan.t) (l : list MergedSpan.t) :
  SortedByStart (x :: l) -> Forall (fun m => startDay x <= startDay m) l.
Proof.
  intros H. apply Sorted_StronglySorted in H.
  - apply StronglySorted_inv in H. tauto.
  - intros a b c Hab Hbc. lia.
Qed.

Lemma SortedByStart_tail (x : MergedSpan.t) (l : list MergedSpan.t) :
  SortedByStart (x :: l) -> SortedByStart l.
Proof. intros H. apply Sorted_inv in H. tauto. Qed.

(** ** The merge loop *)

Lemma gap_days (prev next : MergedSpan.t) : gap prev next = startDay next - endDay prev.
Proof. apply differenceInCalendarDays_dayOf. Qed.

Lemma wellFormed_days (m : MergedSpan.t) : wellFormed m -> startDay m <= endDay m.
Proof. apply dayOf_mono. Qed.

Lemma extend_endDay (current next : MergedSpan.t) :
  endDay (extend current next) = Z.max (endDay current) (endDay next).
Proof. apply dayOf_max. Qed.

Lemma extend_wellFormed (current next : MergedSpan.t) :
  wellFormed current -> wellFormed (extend current next).
Proof. unfold wellFormed, extend, maxDate. simpl. lia. Qed.

Lemma extend_normalized (current next : MergedSpan.t) :
  normalizedSpan current -> normalizedSpan next -> normalizedSpan (extend current next).
Proof.
  intros [Hs He] [_ He']. split; simpl; [exact Hs | apply normalized_max; assumption].
Qed.

(** The output array only grows at its end: what is pushed first comes
    first. *)
Lemma mergeLoop_merged (rest merged : list MergedSpan.t) (current : MergedSpan.t) :
  mergeLoop merged current rest = merged ++ mergeLoop [] current rest.
Proof.
  revert merged current.
  induction rest as [| next rest IH]; intros merged current; simpl.
  - reflexivity.
  - destruct (_ <=? 1).
    + apply IH.
    + rewrite IH, (IH [current]), <- app_assoc. reflexivity.
Qed.

Lemma mergeLoop_coalesce (current next : MergedSpan.t) (rest : list MergedSpan.t) :
  gap current next <= 1 ->
  mergeLoop [] current (next :: rest) = mergeLoop [] (extend current next) rest.
Proof.
  intros H. apply Z.leb_le in H. unfold gap in H. simpl. rewrite H. reflexivity.
Qed.

Lemma mergeLoop_separate (current next : MergedSpan.t) (rest : list MergedSpan.t) :
  1 < gap current next ->
  mergeLoop [] current (next :: rest) = current :: mergeLoop [] next rest.
Proof.
  intros H. apply Z.leb_gt in H. unfold gap in H. simpl. rewrite H.
  apply (mergeLoop_merged rest [current] next).
Qed.

(** The first interval of the output starts where the accumulator
    starts. *)
Lemma mergeLoop_head (rest : list MergedSpan.t) (current : MergedSpan.t) :
  exists first tl,
    mergeLoop [] current rest = first :: tl
    /\ MergedSpan.startDate first = MergedSpan.startDate current.
Proof.
  revert current. induction rest as [| next rest IH]; intros current.
  - exists current, []. split; reflexivity.
  - destruct (Z.le_gt_cases (gap current next) 1) as [H | H].
    + rewrite mergeLoop_coalesce by exact H.
      destruct (IH (extend current next)) as (first & tl & -> & Hs).
      exists first, tl. split; [reflexivity | exact Hs].
    + rewrite mergeLoop_separate by exact H.
      exists current, (mergeLoop [] next rest). split; reflexivity.
Qed.

Lemma mergeLoop_separated (rest : list MergedSpan.t) (current : MergedSpan.t) :
  Separated (mergeLoop [] current rest).
Proof.
  unfold Separated. revert current.
  induction rest as [| next rest IH]; intros current.
  - repeat constructor.
  - destruct (Z.le_gt_cases (gap current next) 1) as [H | H].
    + rewrite mergeLoop_coalesce by exact H. apply IH.
    + rewrite mergeLoop_separate by exact H.
      constructor; [apply IH |].
      destruct (mergeLoop_head rest next) as (first & tl & -> & Hs).
      constructor. unfold gap in *. rewrite Hs. exact H.
Qed.

(** Whatever holds of the input intervals and is kept by [extend] holds
    of the output intervals. *)
Lemma mergeLoop_Forall (P : MergedSpan.t -> Prop) :
  (forall a b, P a -> P b -> P (extend a b)) ->
  forall rest current,
    P current -> Forall P rest -> Forall P (mergeLoop [] current rest).
Proof.
  intros Hext. induction rest as [| next rest IH]; intros current Hc Hr.
  - repeat constructor. exact Hc.
  - apply Forall_cons_iff in Hr. destruct Hr as [Hn Hr].
    destruct (Z.le_gt_cases (gap current next) 1) as [H | H].
    + rewrite mergeLoop_coalesce by exact H. apply IH; auto.
    + rewrite mergeLoop_separate by exact H. constructor; auto.
Qed.

Lemma mergeOverlappingSpans_Forall (P : MergedSpan.t -> Prop) (l : list MergedSpan.t) :
  (forall a b, P a -> P b -> P (extend a b)) ->
  Forall P l -> Forall P (mergeOverlappingSpans l).
Proof.
  intros Hext Hl. destruct l as [| first rest]; simpl.
  - constructor.
  - apply Forall_cons_iff in Hl. apply mergeLoop_Forall; tauto.
Qed.

Lemma mergeOverlappingSpans_separated (l : list MergedSpan.t) :
  Separated (mergeOverlappingSpans l).
Proof.
  destruct l as [| first rest]; simpl.
  - constructor.
  - apply mergeLoop_separated.
Qed.

(** On a list that is already separated the loop never coalesces. *)
Lemma mergeLoop_fixed (rest : list MergedSpan.t) (current : MergedSpan.t) :
  Separated (current :: rest) -> mergeLoop [] current rest = current :: rest.
Proof.
  unfold Separated. revert current.
  induction rest as [| next rest IH]; intros current H.
  - reflexivity.
  - apply Sorted_inv in H. destruct H as [Hs Hhd].
    apply HdRel_inv in Hhd.
    rewrite mergeLoop_separate by exact Hhd. rewrite IH by exact Hs. reflexivity.
Qed.

Lemma mergeOverlappingSpans_fixed (l : list MergedSpan.t) :
  Separated l -> mergeOverlappingSpans l = l.
Proof.
  destruct l as [| first rest]; simpl.
  - reflexivity.
  - apply mergeLoop_fixed.
Qed.

(** Well-formed separated intervals are in ascending order of start. *)
Lemma Separated_sorted (l : list MergedSpan.t) :
  Forall wellFormed l -> Separated l -> SortedByStart l.
Proof.
  unfold Separated, SortedByStart. intros Hwf H.
  induction H as [| a l Hs IH Hhd].
  - constructor.
  - apply Forall_cons_iff in Hwf. destruct Hwf as [Ha Hl].
    constructor; [apply IH, Hl |].
    destruct Hhd as [| b l Hab]; constructor.
    rewrite gap_days in Hab. apply wellFormed_days in Ha. lia.
Qed.

(** ** Coverage *)

Lemma covered_nil (d : Z) : ~ covered [] d.
Proof. intros (m & [] & _). Qed.

Lemma covered_cons (x : MergedSpan.t) (l : list MergedSpan.t) (d : Z) :
  covered (x :: l) d <-> covers x d \/ covered l d.
Proof.
  unfold covered. split.
  - intros (m & [<- | Hin] & Hc); [left; exact Hc | right; exists m; tauto].
  - intros [Hc | (m & Hin & Hc)]; [exists x | exists m]; simpl; tauto.
Qed.

Lemma covered_perm (l l' : list MergedSpan.t) (d : Z) :
  Permutation l l' -> covered l d -> covered l' d.
Proof.
  intros Hp (m & Hin & Hc). exists m. split; [| exact Hc].
  eapply Permutation_in; eassumption.
Qed.

Lemma extend_covers (current next : MergedSpan.t) (d : Z) :
  wellFormed current -> wellFormed next ->
  startDay current <= startDay next -> gap current next <= 1 ->
  covers (extend current next) d <-> covers current d \/ covers next d.
Proof.
  intros Hc Hn Hle Hgap.
  apply wellFormed_days in Hc, Hn. rewrite gap_days in Hgap.
  unfold covers. rewrite extend_endDay.
  change (startDay (extend current next)) with (startDay current). lia.
Qed.

Lemma SortedByStart_replace (a b : MergedSpan.t) (l : list MergedSpan.t) :
  SortedByStart (b :: l) -> startDay a <= startDay b -> SortedByStart (a :: l).
Proof.
  unfold SortedByStart. intros H Hab.
  apply Sorted_inv in H. destruct H as [Hs Hhd].
  constructor; [exact Hs |].
  destruct Hhd as [| c l Hbc]; constructor. lia.
Qed.

(** On input in ascending order of start the merge loop keeps exactly the
    days of its input. *)
Lemma mergeLoop_covered (rest : list MergedSpan.t) (current : MergedSpan.t) (d : Z) :
  wellFormed current -> Forall wellFormed rest -> SortedByStart (current :: rest) ->
  covered (mergeLoop [] current rest) d <-> covered (current :: rest) d.
Proof.
  revert current. induction rest as [| next rest IH]; intros current Hc Hr Hs.
  - reflexivity.
  - apply Forall_cons_iff in Hr. destruct Hr as [Hn Hr].
    pose proof (SortedByStart_strong _ _ Hs) as Hall.
    apply Forall_cons_iff in Hall. destruct Hall as [Hcn _].
    pose proof (SortedByStart_tail _ _ Hs) as Hs'.
    destruct (Z.le_gt_cases (gap current next) 1) as [H | H].
    + rewrite mergeLoop_coalesce by exact H.
      rewrite IH.
      * rewrite !covered_cons, extend_covers by assumption. tauto.
      * apply extend_wellFormed, Hc.
      * exact Hr.
      * apply SortedByStart_replace with (b := next); assumption.
    + rewrite mergeLoop_separate by exact H.
      rewrite covered_cons, IH by assumption. rewrite (covered_cons current). tauto.
Qed.

Lemma mergeOverlappingSpans_covered (l : list MergedSpan.t) (d : Z) :
  Forall wellFormed l -> SortedByStart l ->
  covered (mergeOverlappingSpans l) d <-> covered l d.
Proof.
  destruct l as [| first rest]; simpl.
  - tauto.
  - intros Hwf Hs. apply Forall_cons_iff in Hwf.
    apply mergeLoop_covered; tauto.
Qed.

Lemma sortAndMerge_covered (l : list MergedSpan.t) (d : Z) :
  Forall wellFormed l -> covered (sortAndMerge l) d <-> covered l d.
Proof.
  intros Hwf. unfold sortAndMerge.
  rewrite mergeOverlappingSpans_covered.
  - split; apply covered_perm; [| symmetry]; apply sort_perm.
  - eapply Permutation_Forall; [symmetry; apply sort_perm | exact Hwf].
  - apply sort_sorted.
Qed.

(** ** Separated lists are determined by the days they cover *)

Lemma Separated_beyond (l : list MergedSpan.t) (a : MergedSpan.t) :
  Forall wellFormed l -> Separated (a :: l) ->
  Forall (fun m => endDay a + 1 < startDay m) l.
Proof.
  unfold Separated. revert a.
  induction l as [| b l IH]; intros a Hwf H.
  - constructor.
  - apply Sorted_inv in H. destruct H as [Hs Hhd].
    apply HdRel_inv in Hhd. rewrite gap_days in Hhd.
    apply Forall_cons_iff in Hwf. destruct Hwf as [Hb Hl].
    apply wellFormed_days in Hb.
    constructor; [lia |].
    eapply Forall_impl; [| apply (IH b Hl Hs)].
    simpl. intros m Hm. lia.
Qed.

Lemma covered_beyond (l : list MergedSpan.t) (bound d : Z) :
  Forall (fun m => bound < startDay m) l -> covered l d -> bound < d.
Proof.
  intros Hall (m & Hin & Hc).
  rewrite Forall_forall in Hall. specialize (Hall m Hin).
  unfold covers in Hc. lia.
Qed.

Lemma Separated_same_days (l1 l2 : list MergedSpan.t) :
  Forall wellFormed l1 -> Forall wellFormed l2 ->
  Separated l1 -> Separated l2 ->
  (forall d, covered l1 d <-> covered l2 d) ->
  Forall2 (fun a b => startDay a = startDay b /\ endDay a = endDay b) l1 l2.
Proof.
  revert l2. induction l1 as [| a l1 IH]; intros l2 Hwf1 Hwf2 Hs1 Hs2 Hcov.
  - destruct l2 as [| b l2]; [constructor |].
    exfalso. apply (covered_nil (startDay b)). apply Hcov.
    apply Forall_cons_iff in Hwf2. destruct Hwf2 as [Hb _].
    apply wellFormed_days in Hb.
    apply covered_cons. left. unfold covers. lia.
  - apply Forall_cons_iff in Hwf1. destruct Hwf1 as [Ha Hwf1].
    pose proof (wellFormed_days _ Ha) as Ha'.
    destruct l2 as [| b l2].
    + exfalso. apply (covered_nil (startDay a)). apply Hcov.
      apply covered_cons. left. unfold covers. lia.
    + apply Forall_cons_iff in Hwf2. destruct Hwf2 as [Hb Hwf2].
      pose proof (wellFormed_days _ Hb) as Hb'.
      pose proof (Separated_beyond _ _ Hwf1 Hs1) as Hbey1.
      pose proof (Separated_beyond _ _ Hwf2 Hs2) as Hbey2.
      assert (Hin1 : forall d, covers a d \/ covered l1 d <-> covers b d \/ covered l2 d).
      { intros d. rewrite <- !covered_cons. apply Hcov. }
      assert (Hstart : startDay a = startDay b).
      { pose proof (proj1 (Hin1 (startDay a))) as H1.
        pose proof (proj2 (Hin1 (startDay b))) as H2.
        destruct H1 as [H1 | H1]; [left; unfold covers; lia | |];
          destruct H2 as [H2 | H2]; try (left; unfold covers; lia);
          try apply (covered_beyond _ _ _ Hbey1) in H2;
          try apply (covered_beyond _ _ _ Hbey2) in H1;
          unfold covers in *; lia. }
      assert (Hend : endDay a = endDay b).
      { destruct (Z.lt_total (endDay a) (endDay b)) as [Hlt | [Heq | Hlt]];
          [| exact Heq |]; exfalso.
        - destruct (proj2 (Hin1 (endDay a + 1))) as [H | H].
          + left. unfold covers. lia.
          + unfold covers in H. lia.
          + apply (covered_beyond _ _ _ Hbey1) in H. lia.
        - destruct (proj1 (Hin1 (endDay b + 1))) as [H | H].
          + left. unfold covers. lia.
          + unfold covers in H. lia.
          + apply (covered_beyond _ _ _ Hbey2) in H. lia. }
      constructor; [split; assumption |].
      apply IH; try assumption.
      * apply Sorted_inv in Hs1. tauto.
      * apply Sorted_inv in Hs2. tauto.
      * intros d. split; intros H.
        -- pose proof (covered_beyond _ _ _ Hbey1 H) as Hd.
           destruct (proj1 (Hin1 d)) as [H' | H']; [tauto | | exact H'].
           unfold covers in H'. lia.
        -- pose proof (covered_beyond _ _ _ Hbey2 H) as Hd.
           destruct (proj2 (Hin1 d)) as [H' | H']; [tauto | | exact H'].
           unfold covers in H'. lia.
Qed.

Lemma normalized_same_days (l1 l2 : list MergedSpan.t) :
  Forall normalizedSpan l1 -> Forall normalizedSpan l2 ->
  Forall2 (fun a b => startDay a = startDay b /\ endDay a = endDay b) l1 l2 ->
  l1 = l2.
Proof.
  intros H1 H2 H. induction H as [| a b l1 l2 [Hs He] _ IH].
  - reflexivity.
  - apply Forall_cons_iff in H1, H2.
    destruct H1 as [[Has Hae] H1], H2 as [[Hbs Hbe] H2].
    f_equal; [| apply IH; assumption].
    destruct a as [sa ea], b as [sb eb]; simpl in *.
    f_equal; apply normalized_dayOf_inj; assumption.
Qed.

(** ** Day totals *)

Lemma reduce_days (l : list MergedSpan.t) (init : Z) :
  Js.reduce
    (fun total span =>
       total + calculateDaysBetween (MergedSpan.startDate span) (MergedSpan.endDate span))
    init l
  = init + totalDays l.
Proof.
  unfold totalDays, Js.reduce. revert init.
  induction l as [| a l IH]; intros init; cbn [fold_left].
  - lia.
  - rewrite (IH (init + _)), (IH (0 + _)). lia.
Qed.

Lemma totalDays_cons (a : MergedSpan.t) (l : list MergedSpan.t) :
  totalDays (a :: l) = (endDay a - startDay a + 1) + totalDays l.
Proof.
  unfold totalDays at 1.
  change (Js.reduce ?f 0 (a :: l)) with (Js.reduce f (f 0 a) l).
  cbv beta. rewrite reduce_days, calculateDaysBetween_dayOf. reflexivity.
Qed.

Lemma totalDays_nonneg (l : list MergedSpan.t) :
  Forall wellFormed l -> 0 <= totalDays l.
Proof.
  induction 1 as [| a l Ha _ IH].
  - reflexivity.
  - rewrite totalDays_cons. apply wellFormed_days in Ha. lia.
Qed.

(** Separated intervals that all end by day [hi] hold no more days than
    there are from the first start to [hi]. *)
Lemma totalDays_separated (l : list MergedSpan.t) (hi : Z) :
  Forall wellFormed l -> Separated l -> Forall (fun m => endDay m <= hi) l ->
  match l with
  | [] => totalDays l = 0
  | a :: _ => totalDays l <= hi - startDay a + 1
  end.
Proof.
  unfold Separated. intros Hwf Hs. revert Hwf.
  induction Hs as [| a l Hs IH Hhd]; intros Hwf Hhi.
  - reflexivity.
  - apply Forall_cons_iff in Hwf, Hhi.
    destruct Hwf as [Ha Hwf], Hhi as [Hahi Hhi].
    specialize (IH Hwf Hhi). rewrite totalDays_cons.
    destruct Hhd as [| b l Hab].
    + rewrite IH. lia.
    + rewrite gap_days in Hab. lia.
Qed.

(** ** The clamper *)

Lemma clampSpanToEAD_inv (span : EmploymentSpan.t) (eadPeriod : EADPeriod.t)
    (referenceDate : Date) (m : MergedSpan.t) :
  clampSpanToEAD span eadPeriod referenceDate = Some m ->
  let spanStart := normalizeDate (EmploymentSpan.startDate span) in
  let spanEnd := resolvedEnd span referenceDate in
  let eadStart := normalizeDate (EADPeriod.startDate eadPeriod) in
  let eadEnd := normalizeDate (EADPeriod.endDate eadPeriod) in
  spanStart <= eadEnd /\ eadStart <= spanEnd
  /\ m = MergedSpan.mk (Z.max spanStart eadStart) (Z.min spanEnd eadEnd).
Proof.
  unfold clampSpanToEAD, isAfter, isBefore, maxDate, minDate. simpl.
  destruct (Z.ltb_spec (normalizeDate (EADPeriod.endDate eadPeriod))
              (normalizeDate (EmploymentSpan.startDate span))); simpl;
    [discriminate |].
  destruct (Z.ltb_spec (resolvedEnd span referenceDate)
              (normalizeDate (EADPeriod.startDate eadPeriod))); [discriminate |].
  intros [= <-]. repeat split; assumption.
Qed.

(** The clamped interval lies within the days of the period. *)
Lemma clampSpanToEAD_within (span : EmploymentSpan.t) (eadPeriod : EADPeriod.t)
    (referenceDate : Date) (m : MergedSpan.t) :
  clampSpanToEAD span eadPeriod referenceDate = Some m ->
  dayOf (EADPeriod.startDate eadPeriod) <= startDay m
  /\ endDay m <= dayOf (EADPeriod.endDate eadPeriod).
Proof.
  intros H. apply clampSpanToEAD_inv in H. simpl in H. destruct H as (_ & _ & ->).
  unfold startDay, endDay. simpl. rewrite dayOf_max, dayOf_min.
  unfold normalizeDate. rewrite !dayOf_startOfDay. lia.
Qed.

(** The clamped interval is well formed as soon as the period is and the
    span either does not end before it starts or is ongoing at a reference
    date that is not before the period's end. *)
Lemma clampSpanToEAD_wellFormed (span : EmploymentSpan.t) (eadPeriod : EADPeriod.t)
    (referenceDate : Date) (m : MergedSpan.t) :
  normalizeDate (EADPeriod.startDate eadPeriod) <= normalizeDate (EADPeriod.endDate eadPeriod) ->
  resolvedWellFormed span referenceDate
  \/ (EmploymentSpan.endDate span = None
      /\ normalizeDate (EADPeriod.endDate eadPeriod) <= referenceDate) ->
  clampSpanToEAD span eadPeriod referenceDate = Some m ->
  wellFormed m.
Proof.
  intros Hp Hspan H. apply clampSpanToEAD_inv in H. simpl in H.
  destruct H as (H1 & H2 & ->). unfold wellFormed. simpl.
  assert (normalizeDate (EmploymentSpan.startDate span) <= resolvedEnd span referenceDate).
  { destruct Hspan as [Hw | [Hnone Hle]]; [exact Hw |].
    unfold resolvedEnd in *. rewrite Hnone in *. lia. }
  lia.
Qed.

Lemma validSpan_dates (span : EmploymentSpan.t) :
  validSpan span ->
  match EmploymentSpan.endDate span with
  | Some e => EmploymentSpan.startDate span <= e
  | None => True
  end.
Proof.
  unfold validSpan, validateEmploymentSpan.
  destruct (_ || _); [discriminate |].
  destruct (Js.notDate _); [discriminate |].
  destruct (EmploymentSpan.endDate span) as [e |]; [| trivial].
  unfold isBefore. destruct (Z.ltb_spec e (EmploymentSpan.startDate span));
    [discriminate | intros _; assumption].
Qed.

Lemma validPeriod_dates (period : EADPeriod.t) :
  validPeriod period -> EADPeriod.startDate period <= EADPeriod.endDate period.
Proof.
  unfold validPeriod, validateEADPeriod, Js.notDate, isBefore.
  destruct (Z.ltb_spec (EADPeriod.endDate period) (EADPeriod.startDate period));
    [discriminate | intros _; assumption].
Qed.

(** A validated span that has an end date is well formed at every reference
    date. *)
Lemma validSpan_resolved (span : EmploymentSpan.t) (referenceDate : Date) :
  validSpan span ->
  resolvedWellFormed span referenceDate \/ EmploymentSpan.endDate span = None.
Proof.
  intros H. apply validSpan_dates in H. unfold resolvedWellFormed, resolvedEnd.
  destruct (EmploymentSpan.endDate span) as [e |]; [left | right; reflexivity].
  apply startOfDay_mono, H.
Qed.

(** ** Employed days *)

Lemma filterNonNull_In {A : Type} (l : list (option A)) (x : A) :
  In x (Js.filterNonNull l) <-> In (Some x) l.
Proof.
  induction l as [| [y |] l IH]; simpl.
  - tauto.
  - rewrite IH. split; intros [H | H]; auto; left; congruence.
  - rewrite IH. split; [auto | intros [H | H]; [discriminate | exact H]].
Qed.

Lemma clamped_In (spans : list EmploymentSpan.t) (eadPeriod : EADPeriod.t)
    (referenceDate : Date) (m : MergedSpan.t) :
  In m (Js.filterNonNull
          (map (fun span => clampSpanToEAD span eadPeriod referenceDate) spans))
  <-> exists span, In span spans /\ clampSpanToEAD span eadPeriod referenceDate = Some m.
Proof.
  rewrite filterNonNull_In, in_map_iff. split; intros (span & H1 & H2); eauto.
Qed.

Lemma calculateEmployedDays_bounds (spans : list EmploymentSpan.t)
    (eadPeriod : EADPeriod.t) (referenceDate : Date) :
  normalizeDate (EADPeriod.startDate eadPeriod) <= normalizeDate (EADPeriod.endDate eadPeriod) ->
  Forall (fun span =>
            resolvedWellFormed span referenceDate
            \/ (EmploymentSpan.endDate span = None
                /\ normalizeDate (EADPeriod.endDate eadPeriod) <= referenceDate)) spans ->
  0 <= calculateEmployedDays spans eadPeriod referenceDate
    <= calculateDaysBetween (EADPeriod.startDate eadPeriod) (EADPeriod.endDate eadPeriod).
Proof.
  intros Hp Hspans. unfold calculateEmployedDays.
  set (clamped := Js.filterNonNull _).
  rewrite reduce_days, Z.add_0_l, calculateDaysBetween_dayOf.
  set (lo := dayOf (EADPeriod.startDate eadPeriod)).
  set (hi := dayOf (EADPeriod.endDate eadPeriod)).
  assert (Hlohi : lo <= hi).
  { apply dayOf_mono in Hp. unfold normalizeDate in Hp.
    rewrite !dayOf_startOfDay in Hp. exact Hp. }
  pose (P := fun m => wellFormed m /\ lo <= startDay m /\ endDay m <= hi).
  assert (Hcl : Forall P clamped).
  { apply Forall_forall. intros m Hm. apply clamped_In in Hm.
    destruct Hm as (span & Hin & Hc).
    rewrite Forall_forall in Hspans. specialize (Hspans span Hin).
    split.
    - eapply clampSpanToEAD_wellFormed; eassumption.
    - eapply clampSpanToEAD_within; eassumption. }
  assert (Hout : Forall P (sortAndMerge clamped)).
  { apply mergeOverlappingSpans_Forall.
    - intros a b (Ha & Ha1 & Ha2) (Hb & Hb1 & Hb2). unfold P.
      rewrite extend_endDay. split; [apply extend_wellFormed, Ha |].
      change (startDay (extend a b)) with (startDay a). lia.
    - eapply Permutation_Forall; [symmetry; apply sort_perm | exact Hcl]. }
  assert (Hwf : Forall wellFormed (sortAndMerge clamped)).
  { eapply Forall_impl; [| exact Hout]. intros m Hm. apply Hm. }
  assert (Hhi : Forall (fun m => endDay m <= hi) (sortAndMerge clamped)).
  { eapply Forall_impl; [| exact Hout]. intros m Hm. apply Hm. }
  split; [apply totalDays_nonneg, Hwf |].
  pose proof (totalDays_separated (sortAndMerge clamped) hi Hwf
                (mergeOverlappingSpans_separated _) Hhi) as Hb.
  destruct (sortAndMerge clamped) as [| a l].
  - rewrite Hb. lia.
  - apply Forall_inv in Hout. destruct Hout as (_ & Ha1 & _). lia.
Qed.

(** ** The period accountant *)

Lemma effectiveEnd_le_reference (eadPeriod : EADPeriod.t) (referenceDate : Date) :
  normalizeDate (effectiveEnd eadPeriod referenceDate) <= referenceDate.
Proof.
  unfold normalizeDate. pose proof (startOfDay_le (effectiveEnd eadPeriod referenceDate)).
  unfold effectiveEnd, minDate in *. lia.
Qed.

Lemma adjustedPeriod_wellFormed (eadPeriod : EADPeriod.t) (referenceDate : Date) :
  normalizeDate (EADPeriod.startDate eadPeriod) <= effectiveEnd eadPeriod referenceDate ->
  normalizeDate (EADPeriod.startDate (adjustedPeriod eadPeriod referenceDate))
  <= normalizeDate (EADPeriod.endDate (adjustedPeriod eadPeriod referenceDate)).
Proof.
  intros H. simpl. unfold normalizeDate in *.
  rewrite startOfDay_idem. rewrite <- (startOfDay_idem (EADPeriod.startDate eadPeriod)).
  apply startOfDay_mono, H.
Qed.

(** In the window the accountant works on, the employed days of validated
    spans are between zero and the day count of the window. *)
Lemma employedDays_in_window (spans : list EmploymentSpan.t) (eadPeriod : EADPeriod.t)
    (referenceDate : Date) :
  Forall validSpan spans ->
  normalizeDate (EADPeriod.startDate eadPeriod) <= effectiveEnd eadPeriod referenceDate ->
  0 <= calculateEmployedDays spans (adjustedPeriod eadPeriod referenceDate) referenceDate
    <= windowDays eadPeriod referenceDate.
Proof.
  intros Hv Hw. unfold windowDays.
  apply calculateEmployedDays_bounds.
  - apply adjustedPeriod_wellFormed, Hw.
  - eapply Forall_impl; [| exact Hv]. intros span Hs.
    destruct (validSpan_resolved span referenceDate Hs) as [H | H]; [left; exact H |].
    right. split; [exact H |]. apply effectiveEnd_le_reference.
Qed.

Lemma summary_short_circuit (spans : list EmploymentSpan.t) (eadPeriod : EADPeriod.t)
    (limit : Z) (referenceDate : Date) :
  effectiveEnd eadPeriod referenceDate < normalizeDate (EADPeriod.startDate eadPeriod) ->
  calculateUnemploymentForPeriod spans eadPeriod limit referenceDate
  = mkSummary (EADPeriod.type eadPeriod) 0 limit limit 0%float.
Proof.
  intros H. unfold calculateUnemploymentForPeriod, isBefore.
  apply Z.ltb_lt in H. rewrite H. reflexivity.
Qed.

Lemma summary_accrued (spans : list EmploymentSpan.t) (eadPeriod : EADPeriod.t)
    (limit : Z) (referenceDate : Date) :
  normalizeDate (EADPeriod.startDate eadPeriod) <= effectiveEnd eadPeriod referenceDate ->
  let used :=
    Z.max 0 (windowDays eadPeriod referenceDate
             - calculateEmployedDays spans (adjustedPeriod eadPeriod referenceDate)
                 referenceDate) in
  calculateUnemploymentForPeriod spans eadPeriod limit referenceDate
  = mkSummary (EADPeriod.type eadPeriod) used (Z.max 0 (limit - used)) limit
      (if 0 <? limit then
         PrimFloat.mul (PrimFloat.div (Binary64.ofZ used) (Binary64.ofZ limit))
           (Binary64.ofZ 100)
       else if 0 <? used then 100%float else 0%float).
Proof.
  intros H. unfold calculateUnemploymentForPeriod, isBefore.
  apply Z.ltb_ge in H. rewrite H. reflexivity.
Qed.

Lemma summary_limitDays (spans : list EmploymentSpan.t) (eadPeriod : EADPeriod.t)
    (limit : Z) (referenceDate : Date) :
  limitDays (calculateUnemploymentForPeriod spans eadPeriod limit referenceDate) = limit.
Proof.
  unfold calculateUnemploymentForPeriod. destruct (isBefore _ _); reflexivity.
Qed.

Lemma summary_phase (spans : list EmploymentSpan.t) (eadPeriod : EADPeriod.t)
    (limit : Z) (referenceDate : Date) :
  phase (calculateUnemploymentForPeriod spans eadPeriod limit referenceDate)
  = EADPeriod.type eadPeriod.
Proof.
  unfold calculateUnemploymentForPeriod. destruct (isBefore _ _); reflexivity.
Qed.

(** * Properties of the engine *)

(** C8. For normalized dates [s <= e], [calculateDaysBetween s e] is the
    calendar-day difference [(e - s) / millisecondsInDay] plus one, which is
    also the difference of the day indices plus one; on every date [d],
    normalized or not, [calculateDaysBetween d d = 1]. *)
Theorem calculateDaysBetween_inclusive (s e : Date) :
  isNormalized s -> isNormalized e -> s <= e ->
  calculateDaysBetween s e = (e - s) / millisecondsInDay + 1
  /\ calculateDaysBetween s e = dayOf e - dayOf s + 1
  /\ 1 <= calculateDaysBetween s e
  /\ (forall d : Date, calculateDaysBetween d d = 1).
Proof.
  intros Hs He Hle.
  rewrite calculateDaysBetween_dayOf.
  repeat split.
  - f_equal. unfold isNormalized in Hs, He.
    replace (e - s) with ((dayOf e - dayOf s) * millisecondsInDay).
    + rewrite Z.div_mul by discriminate. reflexivity.
    + rewrite Z.mul_sub_distr_r, <- !startOfDay_dayOf. congruence.
  - pose proof (dayOf_mono _ _ Hle). lia.
  - intros d. rewrite calculateDaysBetween_dayOf. lia.
Qed.

Lemma calculateDaysBetween_inclusive_witness :
  calculateDaysBetween (19509 * 86400000) (19874 * 86400000) = 366.
Proof.
  destruct (calculateDaysBetween_inclusive (19509 * 86400000) (19874 * 86400000))
    as [H _]; [reflexivity | reflexivity | lia | ].
  rewrite H. reflexivity.
Defined.



(** C9. A span whose resolved end is not before its start, clamped to a
    period whose end is not before its start, gives (when it gives
    anything) an interval with [start <= end].  Consequently the employed
    days of such spans are nonnegative and at most the day count of the
    period they were clamped to; for spans that pass
    [validateEmploymentSpan] this holds in the window the accountant clamps
    to, and the accountant's used days are between zero and the day
    count of that window. *)
Theorem clamped_wellFormed_and_bounded :
  (forall span eadPeriod referenceDate m,
      resolvedWellFormed span referenceDate ->
      EADPeriod.startDate eadPeriod <= EADPeriod.endDate eadPeriod ->
      clampSpanToEAD span eadPeriod referenceDate = Some m ->
      MergedSpan.startDate m <= MergedSpan.endDate m)
  /\ (forall spans eadPeriod referenceDate,
         Forall (fun span => resolvedWellFormed span referenceDate) spans ->
         EADPeriod.startDate eadPeriod <= EADPeriod.endDate eadPeriod ->
         0 <= calculateEmployedDays spans eadPeriod referenceDate
           <= calculateDaysBetween (EADPeriod.startDate eadPeriod)
                (EADPeriod.endDate eadPeriod))
  /\ (forall spans eadPeriod referenceDate,
         Forall validSpan spans ->
         normalizeDate (EADPeriod.startDate eadPeriod)
         <= effectiveEnd eadPeriod referenceDate ->
         0 <= calculateEmployedDays spans (adjustedPeriod eadPeriod referenceDate)
                referenceDate
           <= windowDays eadPeriod referenceDate)
  /\ (forall spans eadPeriod limit referenceDate,
         Forall validSpan spans ->
         0 <= usedDays (calculateUnemploymentForPeriod spans eadPeriod limit referenceDate)
           <= Z.max 0 (windowDays eadPeriod referenceDate)).
Proof.
  split; [| split; [| split]].
  - intros span eadPeriod referenceDate m Hs Hp Hc.
    apply (clampSpanToEAD_wellFormed span eadPeriod referenceDate m);
      [apply startOfDay_mono, Hp | left; exact Hs | exact Hc].
  - intros spans eadPeriod referenceDate Hs Hp.
    apply calculateEmployedDays_bounds.
    + apply startOfDay_mono, Hp.
    + eapply Forall_impl; [| exact Hs]. intros; left; assumption.
  - intros spans eadPeriod referenceDate Hv Hw.
    apply employedDays_in_window; assumption.
  - intros spans eadPeriod limit referenceDate Hv.
    destruct (Z.lt_ge_cases (effectiveEnd eadPeriod referenceDate)
                (normalizeDate (EADPeriod.startDate eadPeriod))) as [Hlt | Hge].
    + rewrite summary_short_circuit by exact Hlt. simpl. lia.
    + rewrite summary_accrued by exact Hge. simpl.
      pose proof (employedDays_in_window spans eadPeriod referenceDate Hv Hge). lia.
Qed.

Lemma clamped_wellFormed_and_bounded_witness :
  (MergedSpan.startDate (Sample.span 19509 19600)
   <= MergedSpan.endDate (Sample.span 19509 19600))
  /\ 0 <= calculateEmployedDays [Sample.job 19400 19600; Sample.ongoing 19590]
            Sample.opt (Sample.day 19700)
       <= 366
  /\ 0 <= usedDays (calculateUnemploymentForPeriod
                      [Sample.job 19400 19600; Sample.ongoing 19800]
                      Sample.opt 90 (Sample.day 19700))
       <= 192.
Proof.
  destruct clamped_wellFormed_and_bounded as (H1 & H2 & _ & H4).
  split; [| split].
  - apply (H1 (Sample.job 19400 19600) Sample.opt (Sample.day 20000)).
    + vm_compute. discriminate.
    + vm_compute. discriminate.
    + reflexivity.
  - apply (H2 [Sample.job 19400 19600; Sample.ongoing 19590] Sample.opt (Sample.day 19700)).
    + repeat constructor; vm_compute; discriminate.
    + vm_compute. discriminate.
  - apply (H4 [Sample.job 19400 19600; Sample.ongoing 19800] Sample.opt 90 (Sample.day 19700)).
    repeat constructor.
Defined.

(** C4. The period accountant, on validated employment spans.  With
    [periodStart] the normalized start of the period and [effective] the
    earlier of its normalized end and the reference date: if
    [effective < periodStart] then used days are 0, remaining days are the
    limit and the percentage is 0; otherwise used days are
    [max 0 (total - employed)], where [total] is the day count of the window
    from [periodStart] to [effective] and [employed] the employed days in
    it, remaining days are [max 0 (limit - used)], the percentage is
    [used / limit * 100], computed in binary64 as the source computes it,
    when the limit is positive and else 100 or 0 as used days are positive
    or not, and [used + employed = total]. *)
Theorem calculateUnemploymentForPeriod_spec (spans : list EmploymentSpan.t)
    (eadPeriod : EADPeriod.t) (limit : Z) (referenceDate : Date) :
  Forall validSpan spans ->
  let periodStart := normalizeDate (EADPeriod.startDate eadPeriod) in
  let effective := Z.min (normalizeDate (EADPeriod.endDate eadPeriod)) referenceDate in
  let summary := calculateUnemploymentForPeriod spans eadPeriod limit referenceDate in
  let total := calculateDaysBetween periodStart effective in
  let employed :=
    calculateEmployedDays spans
      (EADPeriod.mk (EADPeriod.type eadPeriod) periodStart effective) referenceDate in
  phase summary = EADPeriod.type eadPeriod
  /\ limitDays summary = limit
  /\ (effective < periodStart ->
      usedDays summary = 0 /\ remainingDays summary = limit
      /\ percentage summary = 0%float)
  /\ (periodStart <= effective ->
      usedDays summary = Z.max 0 (total - employed)
      /\ remainingDays summary = Z.max 0 (limit - usedDays summary)
      /\ (0 < limit ->
          percentage summary
          = PrimFloat.mul
              (PrimFloat.div (Binary64.ofZ (usedDays summary)) (Binary64.ofZ limit))
              100%float)
      /\ (limit <= 0 -> 0 < usedDays summary -> percentage summary = 100%float)
      /\ (limit <= 0 -> usedDays summary <= 0 -> percentage summary = 0%float)
      /\ 0 <= employed <= total
      /\ usedDays summary + employed = total).
Proof.
  intros Hv periodStart effective summary total employed.
  split; [apply summary_phase |]. split; [apply summary_limitDays |]. split.
  - intros Hlt. unfold summary.
    rewrite summary_short_circuit by exact Hlt.
    cbn [usedDays remainingDays percentage]. repeat split; reflexivity.
  - intros Hge.
    pose proof (employedDays_in_window spans eadPeriod referenceDate Hv Hge) as Hb.
    change (0 <= employed <= total) in Hb.
    unfold summary. rewrite summary_accrued by exact Hge.
    cbn [usedDays remainingDays percentage].
    change (windowDays eadPeriod referenceDate) with total.
    change (calculateEmployedDays spans (adjustedPeriod eadPeriod referenceDate)
              referenceDate) with employed.
    split; [reflexivity |]. split; [reflexivity |]. split; [| split; [| split]].
    + intros Hpos. destruct (Z.ltb_spec 0 limit); [reflexivity | lia].
    + intros Hle Hu. destruct (Z.ltb_spec 0 limit); [lia |].
      destruct (Z.ltb_spec 0 (Z.max 0 (total - employed))); [reflexivity | lia].
    + intros Hle Hu. destruct (Z.ltb_spec 0 limit); [lia |].
      destruct (Z.ltb_spec 0 (Z.max 0 (total - employed))); [lia | reflexivity].
    + split; [exact Hb | lia].
Qed.

Lemma calculateUnemploymentForPeriod_spec_witness :
  usedDays (calculateUnemploymentForPeriod
              [Sample.job 19519 19600; Sample.ongoing 19650] Sample.opt 90
              (Sample.day 19700))
  + calculateEmployedDays [Sample.job 19519 19600; Sample.ongoing 19650]
      (EADPeriod.mk OPT (Sample.day 19509) (Sample.day 19700)) (Sample.day 19700)
  = 192.
Proof.
  apply (calculateUnemploymentForPeriod_spec
           [Sample.job 19519 19600; Sample.ongoing 19650] Sample.opt 90
           (Sample.day 19700)).
  - repeat constructor.
  - vm_compute. discriminate.
Defined.

(** ** The span merger: sort, then merge *)

Lemma SortedByStart_compare (l : list MergedSpan.t) :
  SortedByStart l -> Sorted (fun a b => compareByStart a b <= 0) l.
Proof.
  unfold SortedByStart. induction 1 as [| a l Hs IH Hhd]; constructor; [exact IH |].
  destruct Hhd as [| b l Hab]; constructor.
  rewrite compareByStart_days. lia.
Qed.

Lemma sortAndMerge_Forall (P : MergedSpan.t -> Prop) (l : list MergedSpan.t) :
  (forall a b, P a -> P b -> P (extend a b)) ->
  Forall P l -> Forall P (sortAndMerge l).
Proof.
  intros Hext Hl. apply mergeOverlappingSpans_Forall; [exact Hext |].
  eapply Permutation_Forall; [symmetry; apply sort_perm | exact Hl].
Qed.

Lemma sortAndMerge_wellFormed (l : list MergedSpan.t) :
  Forall wellFormed l -> Forall wellFormed (sortAndMerge l).
Proof.
  apply sortAndMerge_Forall. intros a b Ha _. apply extend_wellFormed, Ha.
Qed.

Lemma Separated_days (l : list MergedSpan.t) :
  Separated l <-> Sorted (fun a b => endDay a + 1 < startDay b) l.
Proof.
  unfold Separated. split; intros H; induction H as [| a l Hs IH Hhd];
    constructor; try assumption;
    destruct Hhd as [| b l Hab]; constructor;
    rewrite gap_days in *; lia.
Qed.

(** The merger's output does not depend on the order its input comes in. *)
Lemma sortAndMerge_perm (l l' : list MergedSpan.t) :
  Forall wellFormed l -> Forall normalizedSpan l -> Permutation l l' ->
  sortAndMerge l' = sortAndMerge l.
Proof.
  intros Hwf Hn Hp.
  assert (Hwf' : Forall wellFormed l') by (eapply Permutation_Forall; eassumption).
  assert (Hn' : Forall normalizedSpan l') by (eapply Permutation_Forall; eassumption).
  apply normalized_same_days.
  - apply sortAndMerge_Forall; [apply extend_normalized | exact Hn'].
  - apply sortAndMerge_Forall; [apply extend_normalized | exact Hn].
  - apply Separated_same_days.
    + apply sortAndMerge_wellFormed, Hwf'.
    + apply sortAndMerge_wellFormed, Hwf.
    + apply mergeOverlappingSpans_separated.
    + apply mergeOverlappingSpans_separated.
    + intros d. rewrite !sortAndMerge_covered by assumption.
      split; apply covered_perm; [symmetry |]; exact Hp.
Qed.

(** C6. The span merger ([sortAndMerge]: the sort and the merge of
    [calculateEmployedDays]) on well-formed intervals in any order: it
    merges the input sorted by start day ascending (a rearrangement of the
    input); a consecutive pair whose gap from the previous end to the next
    start is at most one day becomes one interval that ends at the later
    of the two ends, a pair with a larger gap stays separate; the output is
    ascending, disjoint and non-adjacent, made of well-formed intervals that
    cover the days of the input; on normalized intervals the output is the
    same for every order of the input, and is what the merge loop gives on
    any arrangement of the input that is sorted by start; empty input gives
    empty output; and
    [calculateEmployedDays] totals the days of the merger's output on the
    clamped spans. *)
Theorem sortAndMerge_spec (l : list MergedSpan.t) :
  Forall wellFormed l ->
  (sortAndMerge l = mergeOverlappingSpans (Js.sort compareByStart l)
   /\ SortedByStart (Js.sort compareByStart l)
   /\ Permutation (Js.sort compareByStart l) l)
  /\ (forall current next rest,
         gap current next <= 1 ->
         mergeOverlappingSpans (current :: next :: rest)
         = mergeOverlappingSpans
             (MergedSpan.mk (MergedSpan.startDate current)
                (Z.max (MergedSpan.endDate current) (MergedSpan.endDate next)) :: rest))
  /\ (forall current next rest,
         1 < gap current next ->
         mergeOverlappingSpans (current :: next :: rest)
         = current :: mergeOverlappingSpans (next :: rest))
  /\ (Sorted (fun a b => endDay a + 1 < startDay b) (sortAndMerge l)
      /\ SortedByStart (sortAndMerge l)
      /\ Forall wellFormed (sortAndMerge l)
      /\ forall d, covered (sortAndMerge l) d <-> covered l d)
  /\ (Forall normalizedSpan l ->
      forall l', Permutation l l' ->
        sortAndMerge l' = sortAndMerge l
        /\ (SortedByStart l' -> mergeOverlappingSpans l' = sortAndMerge l))
  /\ sortAndMerge [] = []
  /\ (forall spans eadPeriod referenceDate,
         calculateEmployedDays spans eadPeriod referenceDate
         = totalDays
             (sortAndMerge
                (Js.filterNonNull
                   (map (fun span => clampSpanToEAD span eadPeriod referenceDate)
                      spans)))).
Proof.
  intros Hwf.
  pose proof (sortAndMerge_wellFormed l Hwf) as Hout.
  pose proof (mergeOverlappingSpans_separated (Js.sort compareByStart l)) as Hsep.
  fold (sortAndMerge l) in Hsep.
  split; [| split; [| split; [| split; [| split; [| split]]]]].
  - split; [reflexivity |]. split; [apply sort_sorted | apply sort_perm].
  - intros current next rest H. apply (mergeLoop_coalesce current next rest H).
  - intros current next rest H. apply (mergeLoop_separate current next rest H).
  - split; [apply Separated_days, Hsep |].
    split; [apply Separated_sorted; assumption |].
    split; [exact Hout |].
    intros d. apply sortAndMerge_covered, Hwf.
  - intros Hn l' Hp.
    pose proof (sortAndMerge_perm l l' Hwf Hn Hp) as Heq.
    split; [exact Heq |].
    intros Hs'. rewrite <- Heq. unfold sortAndMerge.
    rewrite sort_sorted_id; [reflexivity |].
    apply SortedByStart_compare, Hs'.
  - reflexivity.
  - reflexivity.
Qed.

Lemma sortAndMerge_spec_witness :
  sortAndMerge [Sample.span 20 30; Sample.span 1 5; Sample.span 6 9; Sample.span 3 4]
  = sortAndMerge [Sample.span 1 5; Sample.span 3 4; Sample.span 6 9; Sample.span 20 30].
Proof.
  refine (proj1 (proj1 (proj2 (proj2 (proj2 (proj2
    (sortAndMerge_spec
       [Sample.span 1 5; Sample.span 3 4; Sample.span 6 9; Sample.span 20 30] _)))))
    _ _ _)).
  - repeat constructor; vm_compute; discriminate.
  - repeat constructor.
  - apply Permutation_sym.
    apply (Permutation_cons_app [Sample.span 1 5; Sample.span 3 4; Sample.span 6 9] []).
    simpl. constructor. apply perm_swap.
Defined.

(** C7. Merging is idempotent: a list that is already merged (ascending by
    start, every interval starting more than one day after the previous
    one ends) is returned unchanged, by the merge loop and by the merger as
    a whole; hence merging twice is merging once. *)
Theorem merge_idempotent (l : list MergedSpan.t) :
  (Separated l -> mergeOverlappingSpans l = l)
  /\ (SortedByStart l -> Separated l -> sortAndMerge l = l)
  /\ mergeOverlappingSpans (mergeOverlappingSpans l) = mergeOverlappingSpans l
  /\ (Forall wellFormed l -> sortAndMerge (sortAndMerge l) = sortAndMerge l).
Proof.
  assert (Hfix : forall l', SortedByStart l' -> Separated l' -> sortAndMerge l' = l').
  { intros l' Hs Hsep. unfold sortAndMerge. rewrite sort_sorted_id.
    - apply mergeOverlappingSpans_fixed, Hsep.
    - apply SortedByStart_compare, Hs. }
  split; [apply mergeOverlappingSpans_fixed |]. split; [apply Hfix |]. split.
  - apply mergeOverlappingSpans_fixed, mergeOverlappingSpans_separated.
  - intros Hwf. apply Hfix.
    + apply Separated_sorted;
        [apply sortAndMerge_wellFormed, Hwf | apply mergeOverlappingSpans_separated].
    + apply mergeOverlappingSpans_separated.
Qed.

Lemma merge_idempotent_witness :
  mergeOverlappingSpans [Sample.span 1 5; Sample.span 7 9; Sample.span 20 30]
  = [Sample.span 1 5; Sample.span 7 9; Sample.span 20 30]
  /\ sortAndMerge [Sample.span 1 5; Sample.span 7 9; Sample.span 20 30]
     = [Sample.span 1 5; Sample.span 7 9; Sample.span 20 30].
Proof.
  destruct (merge_idempotent [Sample.span 1 5; Sample.span 7 9; Sample.span 20 30])
    as (H1 & H2 & _).
  split.
  - apply H1. repeat constructor.
  - apply H2; repeat constructor; vm_compute; discriminate.
Defined.

(** C10. Merging a list of well-formed intervals sorted by start never
    removes coverage: every calendar day covered by an input interval is
    covered by an output interval.  Nor does it cover anything else: the
    intervals it coalesces overlap or are back to back, so every day of the
    output is a day of the input. *)
Theorem merge_keeps_coverage (l : list MergedSpan.t) (d : Z) :
  SortedByStart l -> Forall wellFormed l ->
  (covered l d -> covered (mergeOverlappingSpans l) d)
  /\ (covered (mergeOverlappingSpans l) d -> covered l d).
Proof.
  intros Hs Hwf.
  pose proof (mergeOverlappingSpans_covered l d Hwf Hs) as H. tauto.
Qed.

Lemma merge_keeps_coverage_witness :
  covered (mergeOverlappingSpans [Sample.span 1 5; Sample.span 6 9; Sample.span 20 30]) 6.
Proof.
  apply (merge_keeps_coverage [Sample.span 1 5; Sample.span 6 9; Sample.span 20 30] 6).
  - repeat constructor; vm_compute; discriminate.
  - repeat constructor; vm_compute; discriminate.
  - exists (Sample.span 6 9). split; [simpl; tauto |].
    split; vm_compute; discriminate.
Defined.

(** ** The compliance evaluator *)

Lemma ratio_threshold (x : Q) :
  (inject_Z 80 <= x * inject_Z 100 <-> 8 # 10 <= x)%Q.
Proof.
  destruct x as [n d]. unfold Qle, Qmult, inject_Z. simpl.
  rewrite Pos.mul_1_r. lia.
Qed.

Lemma ratio_integers (used allowed : Z) :
  0 < allowed ->
  (8 # 10 <= inject_Z used / inject_Z allowed)%Q <-> 4 * allowed <= 5 * used.
Proof.
  intros H. destruct allowed as [| a | a]; try lia.
  unfold Qle, Qdiv, Qmult, Qinv, inject_Z. cbn [Qnum Qden]. lia.
Qed.

Lemma determineStatus_cases (used allowed : Z) :
  (allowed < used ->
   determineStatus used allowed
   = (violation,
      "You have exceeded the allowed unemployment days. You may be out of status. Please consult your international student office immediately."%string))
  /\ (used <= allowed -> (8 # 10 <= inject_Z used / inject_Z allowed)%Q ->
      determineStatus used allowed
      = (warning,
         "You are approaching the unemployment limit. Please find employment soon to maintain status."%string))
  /\ (used <= allowed -> ~ (8 # 10 <= inject_Z used / inject_Z allowed)%Q ->
      determineStatus used allowed
      = (normal, "Your unemployment days are within the allowed limit."%string)).
Proof.
  unfold determineStatus.
  destruct (Z.ltb_spec allowed used) as [Hlt | Hge].
  - repeat split; intros; try reflexivity; lia.
  - destruct (Qle_bool _ _) eqn:Hq.
    + apply Qle_bool_iff, ratio_threshold in Hq.
      repeat split; intros; try reflexivity; try lia. contradiction.
    + assert (~ (8 # 10 <= inject_Z used / inject_Z allowed)%Q) as Hn.
      { intros Hc. apply ratio_threshold, Qle_bool_iff in Hc. congruence. }
      repeat split; intros; try reflexivity; try lia. contradiction.
Qed.

Lemma calculateUnemployment_inv (now : Date) (optPeriod : EADPeriod.t)
    (stemPeriod : option EADPeriod.t) (spans : list EmploymentSpan.t)
    (options : option Date) (r : CalculationResult) :
  calculateUnemployment now (Some optPeriod) stemPeriod spans options = Some r ->
  let referenceDate := getNormalizedReferenceDate now options in
  phase1 r = calculateUnemploymentForPeriod spans optPeriod OPT_UNEMPLOYMENT_LIMIT referenceDate
  /\ match stemPeriod with
     | Some stem =>
         phase2 r
         = Some (calculateUnemploymentForPeriod spans stem
                   (Z.max 0 (TOTAL_UNEMPLOYMENT_LIMIT_WITH_STEM - usedDays (phase1 r)))
                   referenceDate)
         /\ totalAllowedDays r = TOTAL_UNEMPLOYMENT_LIMIT_WITH_STEM
     | None => phase2 r = None /\ totalAllowedDays r = OPT_UNEMPLOYMENT_LIMIT
     end
  /\ totalUsedDays r
     = usedDays (phase1 r)
       + match phase2 r with Some s => usedDays s | None => 0 end
  /\ (status r, statusMessage r) = determineStatus (totalUsedDays r) (totalAllowedDays r).
Proof.
  unfold calculateUnemployment. destruct stemPeriod as [stem |].
  - destruct (determineStatus _ _) as [st msg] eqn:Hd. intros [= <-].
    split; [reflexivity |]. split; [split; reflexivity |].
    split; [reflexivity | symmetry; exact Hd].
  - destruct (determineStatus _ _) as [st msg] eqn:Hd. intros [= <-].
    split; [reflexivity |]. split; [split; reflexivity |].
    split; [symmetry; apply Z.add_0_r | symmetry; exact Hd].
Qed.

Lemma calculateUnemployment_allowed_pos (now : Date) (optPeriod : EADPeriod.t)
    (stemPeriod : option EADPeriod.t) (spans : list EmploymentSpan.t)
    (options : option Date) (r : CalculationResult) :
  calculateUnemployment now (Some optPeriod) stemPeriod spans options = Some r ->
  0 < totalAllowedDays r.
Proof.
  intros H. apply calculateUnemployment_inv in H. destruct H as (_ & H & _).
  destruct stemPeriod; destruct H as [_ ->]; reflexivity.
Qed.

(** For the two limits the entry point passes and every used-day count
    that is not a violation, the binary64 test gives the verdict of the
    exact quotient. *)
Lemma binary64_agrees (used allowed : Z) :
  allowed = OPT_UNEMPLOYMENT_LIMIT \/ allowed = TOTAL_UNEMPLOYMENT_LIMIT_WITH_STEM ->
  0 <= used <= allowed ->
  Binary64.percentageAtLeast80 used allowed = true <-> 4 * allowed <= 5 * used.
Proof.
  intros Ha Hu.
  assert (Hall : Binary64.agreesUpTo allowed = true)
    by (destruct Ha as [-> | ->]; vm_compute; reflexivity).
  unfold Binary64.agreesUpTo in Hall. rewrite forallb_forall in Hall.
  specialize (Hall (Z.to_nat used)).
  rewrite Z2Nat.id in Hall by lia.
  rewrite <- Z.leb_le. rewrite <- (Bool.eqb_prop _ _ (Hall ltac:(apply in_seq; lia))).
  reflexivity.
Qed.

Lemma summary_usedDays_nonneg (spans : list EmploymentSpan.t) (eadPeriod : EADPeriod.t)
    (limit : Z) (referenceDate : Date) :
  0 <= usedDays (calculateUnemploymentForPeriod spans eadPeriod limit referenceDate).
Proof.
  unfold calculateUnemploymentForPeriod. destruct (isBefore _ _); simpl; lia.
Qed.

Lemma calculateUnemployment_used_nonneg (now : Date) (optPeriod : EADPeriod.t)
    (stemPeriod : option EADPeriod.t) (spans : list EmploymentSpan.t)
    (options : option Date) (r : CalculationResult) :
  calculateUnemployment now (Some optPeriod) stemPeriod spans options = Some r ->
  0 <= totalUsedDays r.
Proof.
  intros H. apply calculateUnemployment_inv in H. destruct H as (H1 & H2 & -> & _).
  assert (0 <= usedDays (phase1 r)) by (rewrite H1; apply summary_usedDays_nonneg).
  destruct stemPeriod as [stem |]; destruct H2 as [-> _]; [| lia].
  pose proof (summary_usedDays_nonneg spans stem
                (Z.max 0 (TOTAL_UNEMPLOYMENT_LIMIT_WITH_STEM - usedDays (phase1 r)))
                (getNormalizedReferenceDate now options)).
  lia.
Qed.

Lemma calculateUnemployment_allowed_cases (now : Date) (optPeriod : EADPeriod.t)
    (stemPeriod : option EADPeriod.t) (spans : list EmploymentSpan.t)
    (options : option Date) (r : CalculationResult) :
  calculateUnemployment now (Some optPeriod) stemPeriod spans options = Some r ->
  totalAllowedDays r = OPT_UNEMPLOYMENT_LIMIT
  \/ totalAllowedDays r = TOTAL_UNEMPLOYMENT_LIMIT_WITH_STEM.
Proof.
  intros H. apply calculateUnemployment_inv in H. destruct H as (_ & H & _).
  destruct stemPeriod; destruct H as [_ ->]; [right | left]; reflexivity.
Qed.

(** C1. The entry point returns null if and only if the first period is
    absent.  Given a first period (validated or not), whatever the second
    period, the employment spans, the injected reference date and the
    clock, it returns a result: the model is a total function, so no
    input makes it fail. *)
Theorem calculateUnemployment_total (now : Date) (optPeriod stemPeriod : option EADPeriod.t)
    (spans : list EmploymentSpan.t) (options : option Date) :
  (calculateUnemployment now optPeriod stemPeriod spans options = None
   <-> optPeriod = None)
  /\ (forall opt, exists r,
         calculateUnemployment now (Some opt) stemPeriod spans options = Some r
         /\ phase1 r
            = calculateUnemploymentForPeriod spans opt OPT_UNEMPLOYMENT_LIMIT
                (getNormalizedReferenceDate now options)).
Proof.
  split.
  - destruct optPeriod as [opt |]; [| split; reflexivity].
    split; [| discriminate].
    unfold calculateUnemployment.
    destruct stemPeriod; destruct (determineStatus _ _); discriminate.
  - intros opt.
    destruct (calculateUnemployment now (Some opt) stemPeriod spans options)
      as [r |] eqn:Hr.
    + exists r. split; [reflexivity |]. apply calculateUnemployment_inv in Hr. apply Hr.
    + exfalso. revert Hr. unfold calculateUnemployment.
      destruct stemPeriod; destruct (determineStatus _ _); discriminate.
Qed.

Lemma calculateUnemployment_total_witness :
  calculateUnemployment 0 None (Some Sample.stem) [Sample.job 19519 19600] None = None
  /\ exists r,
       calculateUnemployment 0 (Some Sample.opt) None [Sample.job 19519 19600]
         (Some (Sample.day 19700)) = Some r.
Proof.
  split.
  - apply (calculateUnemployment_total 0 None (Some Sample.stem)). reflexivity.
  - destruct (calculateUnemployment_total 0 (Some Sample.opt) None
                [Sample.job 19519 19600] (Some (Sample.day 19700))) as [_ H].
    destruct (H Sample.opt) as (r & Hr & _). exists r. exact Hr.
Defined.

(** C2. In every result of the evaluator the status is [violation]
    exactly when total used days exceed total allowed days, [warning]
    exactly when they do not and used / allowed is at least 0.80 (that is,
    5 * used >= 4 * allowed), and [normal] otherwise; when it is not a
    violation the source's test in binary64 arithmetic,
    [(used / allowed) * 100 >= 80], holds exactly when the exact quotient is
    at least 0.80; each status carries its fixed message. *)
Theorem status_spec (now : Date) (optPeriod : EADPeriod.t)
    (stemPeriod : option EADPeriod.t) (spans : list EmploymentSpan.t)
    (options : option Date) (r : CalculationResult) :
  calculateUnemployment now (Some optPeriod) stemPeriod spans options = Some r ->
  let used := totalUsedDays r in
  let allowed := totalAllowedDays r in
  let ratio := (inject_Z used / inject_Z allowed)%Q in
  (status r = violation <-> used > allowed)
  /\ (status r = warning <-> ~ used > allowed /\ (8 # 10 <= ratio)%Q)
  /\ (status r = normal <-> ~ used > allowed /\ ~ (8 # 10 <= ratio)%Q)
  /\ ((8 # 10 <= ratio)%Q <-> 4 * allowed <= 5 * used)
  /\ (~ used > allowed ->
      (Binary64.percentageAtLeast80 used allowed = true <-> (8 # 10 <= ratio)%Q))
  /\ statusMessage r
     = match status r with
       | violation =>
           "You have exceeded the allowed unemployment days. You may be out of status. Please consult your international student office immediately."%string
       | warning =>
           "You are approaching the unemployment limit. Please find employment soon to maintain status."%string
       | normal => "Your unemployment days are within the allowed limit."%string
       end.
Proof.
  intros H used allowed ratio.
  pose proof (calculateUnemployment_allowed_pos _ _ _ _ _ _ H) as Hpos.
  pose proof (calculateUnemployment_allowed_cases _ _ _ _ _ _ H) as Hcases.
  pose proof (calculateUnemployment_used_nonneg _ _ _ _ _ _ H) as Hnonneg.
  apply calculateUnemployment_inv in H. destruct H as (_ & _ & _ & Hd).
  fold used allowed in Hd, Hpos, Hcases, Hnonneg.
  destruct (determineStatus_cases used allowed) as (Hv & Hw & Hn).
  fold ratio in Hw, Hn.
  assert (Hint : (8 # 10 <= ratio)%Q <-> 4 * allowed <= 5 * used)
    by (apply ratio_integers, Hpos).
  assert (Hbin : ~ used > allowed ->
                 (Binary64.percentageAtLeast80 used allowed = true
                  <-> (8 # 10 <= ratio)%Q)).
  { intros Hle. rewrite Hint. apply binary64_agrees; [exact Hcases | lia]. }
  destruct (Z.lt_ge_cases allowed used) as [Hlt | Hge].
  - rewrite (Hv Hlt) in Hd. injection Hd as -> ->.
    repeat split; intros; try discriminate; try tauto; try lia.
  - destruct (Z.le_gt_cases (4 * allowed) (5 * used)) as [Hr | Hr].
    + rewrite (Hw Hge (proj2 Hint Hr)) in Hd. injection Hd as -> ->.
      repeat split; intros; try discriminate; try tauto; try lia.
    + assert (Hnr : ~ (8 # 10 <= ratio)%Q) by (rewrite Hint; lia).
      rewrite (Hn Hge Hnr) in Hd. injection Hd as -> ->.
      repeat split; intros; try discriminate; try tauto; try lia.
Qed.

Lemma status_spec_witness :
  exists r,
    calculateUnemployment 0 (Some Sample.opt) None [Sample.job 19589 19874]
      (Some (Sample.day 20000)) = Some r
    /\ totalUsedDays r = 80 /\ totalAllowedDays r = 90 /\ status r = warning.
Proof.
  destruct (calculateUnemployment 0 (Some Sample.opt) None [Sample.job 19589 19874]
              (Some (Sample.day 20000))) as [r |] eqn:Hr; [| discriminate Hr].
  exists r. split; [reflexivity |].
  pose proof (status_spec 0 Sample.opt None [Sample.job 19589 19874]
                (Some (Sample.day 20000)) r Hr) as (_ & Hw & _).
  assert (Hu : totalUsedDays r = 80 /\ totalAllowedDays r = 90).
  { revert Hr. vm_compute. intros [= <-]. split; reflexivity. }
  destruct Hu as [Hu Ha]. split; [exact Hu |]. split; [exact Ha |].
  apply Hw. rewrite Hu, Ha. split; [lia | vm_compute; discriminate].
Defined.

(** C3. When a second period is supplied its day limit is
    [max 0 (150 - phase1.usedDays)], never negative, total used days are
    the sum of the two phases' used days and total allowed days are 150;
    when none is supplied, total used days are those of phase 1 and total
    allowed days are 90. *)
Theorem stem_limit_and_totals (now : Date) (optPeriod : EADPeriod.t)
    (stemPeriod : option EADPeriod.t) (spans : list EmploymentSpan.t)
    (options : option Date) (r : CalculationResult) :
  calculateUnemployment now (Some optPeriod) stemPeriod spans options = Some r ->
  match stemPeriod with
  | Some stem =>
      exists summary2,
        phase2 r = Some summary2
        /\ summary2
           = calculateUnemploymentForPeriod spans stem
               (Z.max 0 (150 - usedDays (phase1 r)))
               (getNormalizedReferenceDate now options)
        /\ limitDays summary2 = Z.max 0 (150 - usedDays (phase1 r))
        /\ 0 <= limitDays summary2
        /\ totalUsedDays r = usedDays (phase1 r) + usedDays summary2
        /\ totalAllowedDays r = 150
  | None =>
      phase2 r = None
      /\ totalUsedDays r = usedDays (phase1 r)
      /\ totalAllowedDays r = 90
      /\ totalAllowedDays r = limitDays (phase1 r)
  end.
Proof.
  intros H. apply calculateUnemployment_inv in H.
  destruct H as (H1 & H2 & H3 & _).
  destruct stemPeriod as [stem |].
  - destruct H2 as [H2 Ha]. eexists. split; [exact H2 |].
    rewrite H2 in H3. rewrite summary_limitDays.
    repeat split; try assumption; try reflexivity. lia.
  - destruct H2 as [H2 Ha]. rewrite H2 in H3.
    repeat split; try assumption; try lia.
    rewrite Ha, H1, summary_limitDays. reflexivity.
Qed.

Lemma stem_limit_and_totals_witness :
  exists r summary2,
    calculateUnemployment 0 (Some Sample.opt) (Some Sample.stem)
      [Sample.job 19539 19874; Sample.job 19885 20604] (Some (Sample.day 21000)) = Some r
    /\ phase2 r = Some summary2
    /\ limitDays summary2 = Z.max 0 (150 - usedDays (phase1 r))
    /\ totalAllowedDays r = 150.
Proof.
  destruct (calculateUnemployment 0 (Some Sample.opt) (Some Sample.stem)
              [Sample.job 19539 19874; Sample.job 19885 20604]
              (Some (Sample.day 21000))) as [r |] eqn:Hr; [| discriminate Hr].
  destruct (stem_limit_and_totals 0 Sample.opt (Some Sample.stem)
              [Sample.job 19539 19874; Sample.job 19885 20604]
              (Some (Sample.day 21000)) r Hr) as (s2 & H1 & _ & H3 & _ & _ & H6).
  exists r, s2. repeat split; assumption.
Defined.

(** * Worked examples

    The first period runs from 2023-06-01 to 2024-05-31 (366 days), the
    second from 2024-06-01; the reference date is after both. *)

(** No employment at all: every day of the period is an unemployment day. *)
Example no_employment :
  option_map (fun r => (usedDays (phase1 r), totalAllowedDays r, status r))
    (calculateUnemployment 0 (Some Sample.opt) None [] (Some (Sample.day 21000)))
  = Some (366, 90, violation).
Proof. vm_compute. reflexivity. Qed.

(** One job covering the whole period. *)
Example fully_employed :
  option_map (fun r => (usedDays (phase1 r), remainingDays (phase1 r), status r))
    (calculateUnemployment 0 (Some Sample.opt) None [Sample.job 19509 19874]
       (Some (Sample.day 21000)))
  = Some (0, 90, normal).
Proof. vm_compute. reflexivity. Qed.

(** 95 days before the first job. *)
Example ninety_five_days :
  option_map (fun r => (totalUsedDays r, totalAllowedDays r, status r))
    (calculateUnemployment 0 (Some Sample.opt) None [Sample.job 19604 19874]
       (Some (Sample.day 21000)))
  = Some (95, 90, violation).
Proof. vm_compute. reflexivity. Qed.

(** 72 days of 90 is exactly 80 percent. *)
Example seventy_two_days :
  option_map (fun r => (totalUsedDays r, status r))
    (calculateUnemployment 0 (Some Sample.opt) None [Sample.job 19581 19874]
       (Some (Sample.day 21000)))
  = Some (72, warning)
  /\ option_map (fun r => (totalUsedDays r, status r))
       (calculateUnemployment 0 (Some Sample.opt) None [Sample.job 19580 19874]
          (Some (Sample.day 21000)))
     = Some (71, normal).
Proof. split; vm_compute; reflexivity. Qed.

(** First period fully employed, ten days before the job of the second. *)
Example ten_days_in_second_phase :
  option_map
    (fun r => (option_map limitDays (phase2 r), option_map usedDays (phase2 r),
               totalUsedDays r, status r))
    (calculateUnemployment 0 (Some Sample.opt) (Some Sample.stem)
       [Sample.job 19509 19874; Sample.job 19885 20604] (Some (Sample.day 21000)))
  = Some (Some 150, Some 10, 10, normal).
Proof. vm_compute. reflexivity. Qed.

(** A period that has not begun at the reference date. *)
Example period_not_begun :
  calculateUnemploymentForPeriod [] Sample.stem 150 (Sample.day 19700)
  = mkSummary STEM 0 150 150 0%float.
Proof. reflexivity. Qed.

(** The percentage is the binary64 result of the division followed by
    the multiplication: 87 used days of 150 give the largest binary64
    number below 58, and 45 of 90 give 50. *)
Example percentage_is_binary64 :
  let late := calculateUnemploymentForPeriod [] Sample.stem 150 (Sample.day 19961) in
  let half := calculateUnemploymentForPeriod [] Sample.opt 90 (Sample.day 19553) in
  usedDays late = 87
  /\ percentage late = 0x1.cffffffffffffp+5%float
  /\ PrimFloat.ltb (percentage late) 58 = true
  /\ PrimFloat.next_up (percentage late) = 58%float
  /\ usedDays half = 45
  /\ percentage half = 50%float.
Proof. vm_compute. repeat split; reflexivity. Qed.

(** Jobs that end on one day and resume on the next are coalesced; a day
    without a job in between keeps them apart. *)
Example back_to_back :
  sortAndMerge [Sample.span 6 9; Sample.span 1 5] = [Sample.span 1 9]
  /\ sortAndMerge [Sample.span 7 9; Sample.span 1 5]
     = [Sample.span 1 5; Sample.span 7 9].
Proof. split; reflexivity. Qed.

(** The merge loop relies on the sort that precedes it. *)
Example merge_needs_sorted_input :
  mergeOverlappingSpans [Sample.span 5 6; Sample.span 1 2] = [Sample.span 5 6]
  /\ sortAndMerge [Sample.span 5 6; Sample.span 1 2]
     = [Sample.span 1 2; Sample.span 5 6].
Proof. split; reflexivity. Qed.

(** An ongoing job that starts after the reference date passes the
    validator; clamped to a period that runs past the reference date it
    would count negative days.  The accountant never does that: its window
    ends by the reference date, and the clamper drops the span. *)
Example future_ongoing_job :
  validateEmploymentSpan (Sample.ongoing 50) = None
  /\ calculateEmployedDays [Sample.ongoing 50]
       (EADPeriod.mk OPT (Sample.day 0) (Sample.day 100)) (Sample.day 10) = -39
  /\ calculateEmployedDays [Sample.ongoing 50]
       (adjustedPeriod (EADPeriod.mk OPT (Sample.day 0) (Sample.day 100)) (Sample.day 10))
       (Sample.day 10) = 0
  /\ usedDays (calculateUnemploymentForPeriod [Sample.ongoing 50]
                 (EADPeriod.mk OPT (Sample.day 0) (Sample.day 100)) 90 (Sample.day 10))
     = 11.
Proof. repeat split; vm_compute; reflexivity. Qed.

(** * Further properties of the engine *)

(** ** Counting days *)

Lemma countDays_ext (f g : Z -> bool) (n : nat) (lo : Z) :
  (forall d, lo <= d < lo + Z.of_nat n -> f d = g d) ->
  countDays f lo n = countDays g lo n.
Proof.
  revert lo. induction n as [| k IH]; intros lo H.
  - reflexivity.
  - cbn [countDays]. rewrite (H lo) by lia. rewrite (IH (lo + 1)); [reflexivity |].
    intros d Hd. apply H. lia.
Qed.

Lemma countDays_bounds (f : Z -> bool) (n : nat) (lo : Z) :
  0 <= countDays f lo n <= Z.of_nat n.
Proof.
  revert lo. induction n as [| k IH]; intros lo.
  - simpl. lia.
  - cbn [countDays]. specialize (IH (lo + 1)). destruct (f lo); lia.
Qed.

Lemma countDays_none (f : Z -> bool) (n : nat) (lo : Z) :
  (forall d, lo <= d < lo + Z.of_nat n -> f d = false) ->
  countDays f lo n = 0.
Proof.
  revert lo. induction n as [| k IH]; intros lo H.
  - reflexivity.
  - cbn [countDays]. rewrite (H lo) by lia. rewrite IH; [reflexivity |].
    intros d Hd. apply H. lia.
Qed.

(** Two conditions that never hold on the same day count separately. *)
Lemma countDays_disjoint (f g : Z -> bool) (n : nat) (lo : Z) :
  (forall d, lo <= d < lo + Z.of_nat n -> f d = true -> g d = false) ->
  countDays (fun d => f d || g d) lo n = countDays f lo n + countDays g lo n.
Proof.
  revert lo. induction n as [| k IH]; intros lo H.
  - reflexivity.
  - cbn [countDays]. rewrite IH by (intros d Hd; apply H; lia).
    specialize (H lo ltac:(lia)).
    destruct (f lo); [rewrite H by reflexivity |]; destruct (g lo); cbn [orb]; lia.
Qed.

Lemma countDays_negb (f : Z -> bool) (n : nat) (lo : Z) :
  countDays (fun d => negb (f d)) lo n = Z.of_nat n - countDays f lo n.
Proof.
  revert lo. induction n as [| k IH]; intros lo.
  - reflexivity.
  - cbn [countDays]. rewrite IH. destruct (f lo); cbn [negb]; lia.
Qed.

Lemma countDays_le (f g : Z -> bool) (n : nat) (lo : Z) :
  (forall d, lo <= d < lo + Z.of_nat n -> f d = true -> g d = true) ->
  countDays f lo n <= countDays g lo n.
Proof.
  revert lo. induction n as [| k IH]; intros lo H.
  - reflexivity.
  - cbn [countDays]. specialize (IH (lo + 1) ltac:(intros d Hd; apply H; lia)).
    specialize (H lo ltac:(lia)).
    destruct (f lo); [rewrite H by reflexivity |]; destruct (g lo); lia.
Qed.

Lemma countDays_longer (f : Z -> bool) (n m : nat) (lo : Z) :
  (n <= m)%nat -> countDays f lo n <= countDays f lo m.
Proof.
  revert lo m. induction n as [| k IH]; intros lo m H.
  - apply countDays_bounds.
  - destruct m as [| m]; [lia |]. cbn [countDays].
    specialize (IH (lo + 1) m ltac:(lia)). lia.
Qed.

(** The days of an interval that fall in a range. *)
Lemma countDays_interval (s e : Z) (n : nat) (lo : Z) :
  countDays (fun d => (s <=? d) && (d <=? e)) lo n
  = Z.max 0 (Z.min e (lo + Z.of_nat n - 1) - Z.max s lo + 1).
Proof.
  revert lo. induction n as [| k IH]; intros lo.
  - simpl. lia.
  - cbn [countDays]. rewrite IH.
    destruct (Z.leb_spec s lo), (Z.leb_spec lo e); cbn [andb]; lia.
Qed.

(** ** Employed days are the days with a job *)

Lemma daysInRange_spec (lo hi d : Z) :
  lo <= d < lo + Z.of_nat (daysInRange lo hi) <-> lo <= d <= hi.
Proof. unfold daysInRange. lia. Qed.

(** Separated intervals inside a range hold exactly the days of the range
    they cover. *)
Lemma totalDays_count (L : list MergedSpan.t) (lo hi : Z) :
  Forall wellFormed L -> Separated L ->
  Forall (fun m => lo <= startDay m /\ endDay m <= hi) L ->
  forall f : Z -> bool,
    (forall d, lo <= d <= hi -> (f d = true <-> covered L d)) ->
    totalDays L = countDays f lo (daysInRange lo hi).
Proof.
  induction L as [| a L IH]; intros Hwf Hsep Hin f Hf.
  - symmetry. apply countDays_none. intros d Hd. apply daysInRange_spec in Hd.
    destruct (f d) eqn:E; [| reflexivity].
    exfalso. apply (covered_nil d). apply Hf; assumption.
  - apply Forall_cons_iff in Hwf, Hin.
    destruct Hwf as [Ha Hwf], Hin as [[Halo Hahi] Hin].
    pose proof (wellFormed_days _ Ha) as Ha'.
    pose proof (Separated_beyond _ _ Hwf Hsep) as Hbey.
    assert (Hsep' : Separated L) by (apply Sorted_inv in Hsep; tauto).
    set (g := fun d => (startDay a <=? d) && (d <=? endDay a)).
    assert (Hg : forall d, g d = true <-> covers a d).
    { intros d. unfold g, covers. rewrite andb_true_iff, !Z.leb_le. tauto. }
    set (h := fun d => f d && negb (g d)).
    rewrite totalDays_cons.
    rewrite (countDays_ext f (fun d => g d || h d)).
    + rewrite countDays_disjoint.
      * unfold g at 1. rewrite countDays_interval.
        rewrite <- (IH Hwf Hsep' Hin h).
        -- unfold daysInRange. lia.
        -- intros d Hd. unfold h. rewrite andb_true_iff, negb_true_iff.
           rewrite (Hf d Hd), covered_cons. split.
           ++ intros [[Hc | Hc] Hn]; [| exact Hc].
              apply Hg in Hc. congruence.
           ++ intros Hc. split; [right; exact Hc |].
              destruct (g d) eqn:E; [| reflexivity].
              apply Hg in E. apply (covered_beyond _ _ _ Hbey) in Hc.
              unfold covers in E. lia.
      * intros d _ Hgd. unfold h. rewrite Hgd. apply andb_false_r.
    + intros d Hd. apply daysInRange_spec in Hd. unfold h.
      destruct (g d) eqn:E; [| destruct (f d); reflexivity].
      cbn [orb]. apply Hf; [exact Hd |]. apply covered_cons. left. apply Hg, E.
Qed.

Lemma clampSpanToEAD_None_days (span : EmploymentSpan.t) (eadPeriod : EADPeriod.t)
    (referenceDate : Date) :
  clampSpanToEAD span eadPeriod referenceDate = None ->
  dayOf (EADPeriod.endDate eadPeriod) < dayOf (EmploymentSpan.startDate span)
  \/ dayOf (resolvedEnd span referenceDate) < dayOf (EADPeriod.startDate eadPeriod).
Proof.
  unfold clampSpanToEAD, isAfter, isBefore.
  destruct (Z.ltb_spec (normalizeDate (EADPeriod.endDate eadPeriod))
              (normalizeDate (EmploymentSpan.startDate span))) as [H | H].
  - intros _. left.
    apply (lt_normalized_dayOf _ _ (normalizeDate_normalized _)) in H.
    unfold normalizeDate in H. rewrite !dayOf_startOfDay in H. exact H.
  - destruct (Z.ltb_spec (resolvedEnd span referenceDate)
                (normalizeDate (EADPeriod.startDate eadPeriod))) as [H' | H'];
      [| discriminate].
    intros _. right.
    apply (lt_normalized_dayOf _ _ (normalizeDate_normalized _)) in H'.
    unfold normalizeDate in H'. rewrite dayOf_startOfDay in H'. exact H'.
Qed.

Lemma clampSpanToEAD_Some_days (span : EmploymentSpan.t) (eadPeriod : EADPeriod.t)
    (referenceDate : Date) (m : MergedSpan.t) :
  clampSpanToEAD span eadPeriod referenceDate = Some m ->
  startDay m = Z.max (dayOf (EmploymentSpan.startDate span))
                 (dayOf (EADPeriod.startDate eadPeriod))
  /\ endDay m = Z.min (dayOf (resolvedEnd span referenceDate))
                  (dayOf (EADPeriod.endDate eadPeriod)).
Proof.
  intros H. apply clampSpanToEAD_inv in H. simpl in H. destruct H as (_ & _ & ->).
  unfold startDay, endDay. simpl. rewrite dayOf_max, dayOf_min.
  unfold normalizeDate. rewrite !dayOf_startOfDay. split; reflexivity.
Qed.

(** The clamped interval of a span covers the days of the period that the
    span covers. *)
Lemma clampSpanToEAD_covers (span : EmploymentSpan.t) (eadPeriod : EADPeriod.t)
    (referenceDate : Date) (d : Z) :
  (exists m, clampSpanToEAD span eadPeriod referenceDate = Some m /\ covers m d)
  <-> dayOf (EADPeriod.startDate eadPeriod) <= d <= dayOf (EADPeriod.endDate eadPeriod)
      /\ spanCoversDay referenceDate span d = true.
Proof.
  unfold spanCoversDay. rewrite andb_true_iff, !Z.leb_le.
  destruct (clampSpanToEAD span eadPeriod referenceDate) as [m |] eqn:E.
  - apply clampSpanToEAD_Some_days in E. destruct E as [Es Ee]. split.
    + intros (m' & [= <-] & Hc). unfold covers in Hc. lia.
    + intros H. exists m. split; [reflexivity |]. unfold covers. lia.
  - apply clampSpanToEAD_None_days in E. split.
    + intros (m & Hm & _). discriminate.
    + intros H. lia.
Qed.

Lemma clamped_covered (spans : list EmploymentSpan.t) (eadPeriod : EADPeriod.t)
    (referenceDate : Date) (d : Z) :
  covered
    (Js.filterNonNull
       (map (fun span => clampSpanToEAD span eadPeriod referenceDate) spans)) d
  <-> dayOf (EADPeriod.startDate eadPeriod) <= d <= dayOf (EADPeriod.endDate eadPeriod)
      /\ employedOn spans referenceDate d = true.
Proof.
  unfold covered, employedOn. rewrite existsb_exists. split.
  - intros (m & Hin & Hc). apply clamped_In in Hin. destruct Hin as (span & Hs & Hm).
    destruct (proj1 (clampSpanToEAD_covers span eadPeriod referenceDate d)) as [Hd Hcov].
    + exists m. split; assumption.
    + split; [exact Hd |]. exists span. split; assumption.
  - intros (Hd & span & Hs & Hcov).
    destruct (proj2 (clampSpanToEAD_covers span eadPeriod referenceDate d))
      as (m & Hm & Hc); [split; assumption |].
    exists m. split; [| exact Hc]. apply clamped_In. exists span. split; assumption.
Qed.

Lemma calculateEmployedDays_count (spans : list EmploymentSpan.t)
    (eadPeriod : EADPeriod.t) (referenceDate : Date) :
  normalizeDate (EADPeriod.startDate eadPeriod) <= normalizeDate (EADPeriod.endDate eadPeriod) ->
  Forall (fun span =>
            resolvedWellFormed span referenceDate
            \/ (EmploymentSpan.endDate span = None
                /\ normalizeDate (EADPeriod.endDate eadPeriod) <= referenceDate)) spans ->
  calculateEmployedDays spans eadPeriod referenceDate
  = countDays (employedOn spans referenceDate)
      (dayOf (EADPeriod.startDate eadPeriod))
      (daysInRange (dayOf (EADPeriod.startDate eadPeriod))
         (dayOf (EADPeriod.endDate eadPeriod))).
Proof.
  intros Hp Hspans. unfold calculateEmployedDays.
  set (clamped := Js.filterNonNull _).
  rewrite reduce_days, Z.add_0_l.
  set (lo := dayOf (EADPeriod.startDate eadPeriod)).
  set (hi := dayOf (EADPeriod.endDate eadPeriod)).
  pose (P := fun m => wellFormed m /\ lo <= startDay m /\ endDay m <= hi).
  assert (Hcl : Forall P clamped).
  { apply Forall_forall. intros m Hm. apply clamped_In in Hm.
    destruct Hm as (span & Hin & Hc).
    rewrite Forall_forall in Hspans. specialize (Hspans span Hin).
    split.
    - eapply clampSpanToEAD_wellFormed; eassumption.
    - eapply clampSpanToEAD_within; eassumption. }
  assert (Hwfc : Forall wellFormed clamped).
  { eapply Forall_impl; [| exact Hcl]. intros m Hm. apply Hm. }
  assert (Hout : Forall P (sortAndMerge clamped)).
  { apply sortAndMerge_Forall; [| exact Hcl].
    intros a b (Ha & Ha1 & Ha2) (Hb & Hb1 & Hb2). unfold P.
    rewrite extend_endDay. split; [apply extend_wellFormed, Ha |].
    change (startDay (extend a b)) with (startDay a). lia. }
  apply totalDays_count.
  - eapply Forall_impl; [| exact Hout]. intros m Hm. apply Hm.
  - apply mergeOverlappingSpans_separated.
  - eapply Forall_impl; [| exact Hout]. intros m Hm. apply Hm.
  - intros d Hd. rewrite sortAndMerge_covered by exact Hwfc.
    unfold clamped. rewrite clamped_covered. fold lo hi. tauto.
Qed.

Lemma accountant_window_days (eadPeriod : EADPeriod.t) (referenceDate : Date) :
  normalizeDate (EADPeriod.startDate eadPeriod) <= effectiveEnd eadPeriod referenceDate ->
  windowDays eadPeriod referenceDate
  = Z.of_nat (daysInRange (dayOf (EADPeriod.startDate eadPeriod))
                (dayOf (effectiveEnd eadPeriod referenceDate))).
Proof.
  intros H. unfold windowDays. rewrite calculateDaysBetween_dayOf.
  apply dayOf_mono in H. unfold normalizeDate in *. rewrite dayOf_startOfDay in *.
  unfold daysInRange. lia.
Qed.

Lemma accountant_employed_count (spans : list EmploymentSpan.t) (eadPeriod : EADPeriod.t)
    (referenceDate : Date) :
  Forall validSpan spans ->
  normalizeDate (EADPeriod.startDate eadPeriod) <= effectiveEnd eadPeriod referenceDate ->
  calculateEmployedDays spans (adjustedPeriod eadPeriod referenceDate) referenceDate
  = countDays (employedOn spans referenceDate)
      (dayOf (EADPeriod.startDate eadPeriod))
      (daysInRange (dayOf (EADPeriod.startDate eadPeriod))
         (dayOf (effectiveEnd eadPeriod referenceDate))).
Proof.
  intros Hv Hw. rewrite calculateEmployedDays_count.
  - simpl. unfold normalizeDate. rewrite dayOf_startOfDay. reflexivity.
  - apply adjustedPeriod_wellFormed, Hw.
  - eapply Forall_impl; [| exact Hv]. intros span Hs.
    destruct (validSpan_resolved span referenceDate Hs) as [H | H]; [left; exact H |].
    right. split; [exact H |]. apply effectiveEnd_le_reference.
Qed.

(** The used days of the accountant, in both of its branches, are the days
    of the window without a job. *)
Lemma accountant_used_count (spans : list EmploymentSpan.t) (eadPeriod : EADPeriod.t)
    (limit : Z) (referenceDate : Date) :
  Forall validSpan spans ->
  usedDays (calculateUnemploymentForPeriod spans eadPeriod limit referenceDate)
  = countDays (fun d => negb (employedOn spans referenceDate d))
      (dayOf (EADPeriod.startDate eadPeriod))
      (daysInRange (dayOf (EADPeriod.startDate eadPeriod))
         (dayOf (effectiveEnd eadPeriod referenceDate))).
Proof.
  intros Hv.
  destruct (Z.lt_ge_cases (effectiveEnd eadPeriod referenceDate)
              (normalizeDate (EADPeriod.startDate eadPeriod))) as [Hlt | Hge].
  - rewrite summary_short_circuit by exact Hlt. cbn [usedDays].
    apply (lt_normalized_dayOf _ _ (normalizeDate_normalized _)) in Hlt.
    unfold normalizeDate in Hlt. rewrite dayOf_startOfDay in Hlt.
    unfold daysInRange.
    replace (Z.to_nat _) with 0%nat by lia. reflexivity.
  - rewrite summary_accrued by exact Hge. cbn [usedDays].
    pose proof (employedDays_in_window spans eadPeriod referenceDate Hv Hge) as Hb.
    rewrite countDays_negb, <- accountant_employed_count by assumption.
    rewrite <- accountant_window_days by exact Hge. lia.
Qed.

Lemma employedOn_incl (spans spans' : list EmploymentSpan.t) (referenceDate : Date) (d : Z) :
  incl spans spans' ->
  employedOn spans referenceDate d = true -> employedOn spans' referenceDate d = true.
Proof.
  unfold employedOn. rewrite !existsb_exists.
  intros Hincl (span & Hin & Hc). exists span. split; [apply Hincl, Hin | exact Hc].
Qed.

Lemma employedOn_same (spans spans' : list EmploymentSpan.t) (referenceDate : Date) (d : Z) :
  (forall span, In span spans <-> In span spans') ->
  employedOn spans referenceDate d = employedOn spans' referenceDate d.
Proof.
  intros H. apply Bool.eq_true_iff_eq.
  split; apply employedOn_incl; intros span; apply H.
Qed.

(** X1. The employed days of spans that do not end before they start,
    within a period that does not end before it starts, are the number of
    calendar days of the period on which some span is running. *)
Theorem employedDays_count_days_with_a_job (spans : list EmploymentSpan.t)
    (eadPeriod : EADPeriod.t) (referenceDate : Date) :
  EADPeriod.startDate eadPeriod <= EADPeriod.endDate eadPeriod ->
  Forall (fun span => resolvedWellFormed span referenceDate) spans ->
  calculateEmployedDays spans eadPeriod referenceDate
  = countDays (employedOn spans referenceDate)
      (dayOf (EADPeriod.startDate eadPeriod))
      (daysInRange (dayOf (EADPeriod.startDate eadPeriod))
         (dayOf (EADPeriod.endDate eadPeriod))).
Proof.
  intros Hp Hs. apply calculateEmployedDays_count.
  - apply startOfDay_mono, Hp.
  - eapply Forall_impl; [| exact Hs]. intros span H. left. exact H.
Qed.

Lemma employedDays_count_days_with_a_job_witness :
  calculateEmployedDays
    [Sample.job 19400 19520; Sample.job 19515 19530; Sample.ongoing 19870]
    Sample.opt (Sample.day 20000)
  = countDays
      (employedOn [Sample.job 19400 19520; Sample.job 19515 19530; Sample.ongoing 19870]
         (Sample.day 20000))
      19509 366.
Proof.
  apply (employedDays_count_days_with_a_job
           [Sample.job 19400 19520; Sample.job 19515 19530; Sample.ongoing 19870]
           Sample.opt (Sample.day 20000)).
  - vm_compute. discriminate.
  - repeat constructor; vm_compute; discriminate.
Defined.

(** X2. For validated employment spans the used days the accountant
    reports are exactly the calendar days, from the period's start to the
    earlier of its end and the reference date, on which no span is running
    (none when the period has not begun). *)
Theorem usedDays_count_days_without_a_job (spans : list EmploymentSpan.t)
    (eadPeriod : EADPeriod.t) (limit : Z) (referenceDate : Date) :
  Forall validSpan spans ->
  usedDays (calculateUnemploymentForPeriod spans eadPeriod limit referenceDate)
  = countDays (fun d => negb (employedOn spans referenceDate d))
      (dayOf (EADPeriod.startDate eadPeriod))
      (daysInRange (dayOf (EADPeriod.startDate eadPeriod))
         (Z.min (dayOf (EADPeriod.endDate eadPeriod)) (dayOf referenceDate))).
Proof.
  intros Hv. rewrite accountant_used_count by exact Hv.
  unfold effectiveEnd, minDate. rewrite dayOf_min.
  unfold normalizeDate. rewrite dayOf_startOfDay. reflexivity.
Qed.

Lemma usedDays_count_days_without_a_job_witness :
  usedDays (calculateUnemploymentForPeriod
              [Sample.job 19400 19520; Sample.job 19515 19530; Sample.ongoing 19690]
              Sample.opt 90 (Sample.day 19700))
  = countDays
      (fun d =>
         negb (employedOn
                 [Sample.job 19400 19520; Sample.job 19515 19530; Sample.ongoing 19690]
                 (Sample.day 19700) d))
      19509 192.
Proof.
  apply (usedDays_count_days_without_a_job
           [Sample.job 19400 19520; Sample.job 19515 19530; Sample.ongoing 19690]
           Sample.opt 90 (Sample.day 19700)).
  repeat constructor.
Defined.

(** ** What the result depends on *)

Lemma accountant_same_coverage (spans spans' : list EmploymentSpan.t)
    (eadPeriod : EADPeriod.t) (limit : Z) (referenceDate : Date) :
  Forall validSpan spans -> Forall validSpan spans' ->
  (forall d,
      dayOf (EADPeriod.startDate eadPeriod) <= d
      <= dayOf (effectiveEnd eadPeriod referenceDate) ->
      employedOn spans referenceDate d = employedOn spans' referenceDate d) ->
  calculateUnemploymentForPeriod spans eadPeriod limit referenceDate
  = calculateUnemploymentForPeriod spans' eadPeriod limit referenceDate.
Proof.
  intros Hv Hv' Hsame.
  destruct (Z.lt_ge_cases (effectiveEnd eadPeriod referenceDate)
              (normalizeDate (EADPeriod.startDate eadPeriod))) as [Hlt | Hge].
  - rewrite !summary_short_circuit by exact Hlt. reflexivity.
  - rewrite !summary_accrued by exact Hge.
    rewrite !accountant_employed_count by assumption.
    rewrite (countDays_ext (employedOn spans referenceDate)
               (employedOn spans' referenceDate)); [reflexivity |].
    intros d Hd. apply Hsame, daysInRange_spec, Hd.
Qed.

Lemma usedDays_any_limit (spans : list EmploymentSpan.t) (eadPeriod : EADPeriod.t)
    (limit limit' : Z) (referenceDate : Date) :
  usedDays (calculateUnemploymentForPeriod spans eadPeriod limit referenceDate)
  = usedDays (calculateUnemploymentForPeriod spans eadPeriod limit' referenceDate).
Proof.
  unfold calculateUnemploymentForPeriod. destruct (isBefore _ _); reflexivity.
Qed.

Lemma calculateUnemployment_totals (now : Date) (optPeriod : EADPeriod.t)
    (stemPeriod : option EADPeriod.t) (spans : list EmploymentSpan.t)
    (options : option Date) (r : CalculationResult) :
  calculateUnemployment now (Some optPeriod) stemPeriod spans options = Some r ->
  let referenceDate := getNormalizedReferenceDate now options in
  totalUsedDays r
  = usedDays (calculateUnemploymentForPeriod spans optPeriod 0 referenceDate)
    + match stemPeriod with
      | Some stem => usedDays (calculateUnemploymentForPeriod spans stem 0 referenceDate)
      | None => 0
      end
  /\ totalAllowedDays r
     = match stemPeriod with
       | Some _ => TOTAL_UNEMPLOYMENT_LIMIT_WITH_STEM
       | None => OPT_UNEMPLOYMENT_LIMIT
       end.
Proof.
  intros H. apply calculateUnemployment_inv in H. destruct H as (H1 & H2 & H3 & _).
  cbv zeta in *. rewrite H3, H1.
  rewrite (usedDays_any_limit spans optPeriod OPT_UNEMPLOYMENT_LIMIT 0).
  destruct stemPeriod as [stem |]; destruct H2 as [-> ->]; split; try reflexivity.
  f_equal. apply usedDays_any_limit.
Qed.

Lemma status_violation_iff (now : Date) (optPeriod : EADPeriod.t)
    (stemPeriod : option EADPeriod.t) (spans : list EmploymentSpan.t)
    (options : option Date) (r : CalculationResult) :
  calculateUnemployment now (Some optPeriod) stemPeriod spans options = Some r ->
  status r = violation <-> totalAllowedDays r < totalUsedDays r.
Proof.
  intros H. apply calculateUnemployment_inv in H. destruct H as (_ & _ & _ & Hd).
  unfold determineStatus in Hd.
  destruct (Z.ltb_spec (totalAllowedDays r) (totalUsedDays r)) as [Hlt | Hge].
  - injection Hd as -> _. tauto.
  - destruct (Qle_bool _ _); injection Hd as -> _; split; (discriminate || lia).
Qed.

Lemma calculateUnemployment_Some (now : Date) (optPeriod : EADPeriod.t)
    (stemPeriod : option EADPeriod.t) (spans : list EmploymentSpan.t)
    (options : option Date) :
  exists r, calculateUnemployment now (Some optPeriod) stemPeriod spans options = Some r.
Proof.
  unfold calculateUnemployment.
  destruct stemPeriod; destruct (determineStatus _ _); eexists; reflexivity.
Qed.

(** X3. Adding validated employment spans never raises the used days of a
    period and never lowers its remaining days. *)
Theorem more_employment_never_more_used_days (spans spans' : list EmploymentSpan.t)
    (eadPeriod : EADPeriod.t) (limit : Z) (referenceDate : Date) :
  Forall validSpan spans -> Forall validSpan spans' -> incl spans spans' ->
  usedDays (calculateUnemploymentForPeriod spans' eadPeriod limit referenceDate)
  <= usedDays (calculateUnemploymentForPeriod spans eadPeriod limit referenceDate)
  /\ remainingDays (calculateUnemploymentForPeriod spans eadPeriod limit referenceDate)
     <= remainingDays (calculateUnemploymentForPeriod spans' eadPeriod limit referenceDate).
Proof.
  intros Hv Hv' Hincl.
  assert (Hu : usedDays (calculateUnemploymentForPeriod spans' eadPeriod limit referenceDate)
               <= usedDays (calculateUnemploymentForPeriod spans eadPeriod limit referenceDate)).
  { rewrite !accountant_used_count by assumption.
    apply countDays_le. intros d _. rewrite !negb_true_iff. intros Hn.
    destruct (employedOn spans referenceDate d) eqn:E; [| reflexivity].
    rewrite (employedOn_incl _ _ _ _ Hincl E) in Hn. discriminate. }
  split; [exact Hu |].
  revert Hu. unfold calculateUnemploymentForPeriod.
  destruct (isBefore _ _); cbn [usedDays remainingDays]; lia.
Qed.

Lemma more_employment_never_more_used_days_witness :
  usedDays (calculateUnemploymentForPeriod
              [Sample.job 19600 19700; Sample.job 19520 19610] Sample.opt 90
              (Sample.day 20000))
  <= usedDays (calculateUnemploymentForPeriod [Sample.job 19520 19610] Sample.opt 90
                 (Sample.day 20000)).
Proof.
  apply (more_employment_never_more_used_days
           [Sample.job 19520 19610] [Sample.job 19600 19700; Sample.job 19520 19610]
           Sample.opt 90 (Sample.day 20000)).
  - repeat constructor.
  - repeat constructor.
  - intros span Hin. right. exact Hin.
Defined.

(** X4. At the entry point, adding validated employment spans never raises
    the total used days and never turns a result that is not a violation
    into a violation. *)
Theorem more_employment_never_a_new_violation (now : Date) (optPeriod : EADPeriod.t)
    (stemPeriod : option EADPeriod.t) (spans spans' : list EmploymentSpan.t)
    (options : option Date) (r r' : CalculationResult) :
  Forall validSpan spans -> Forall validSpan spans' -> incl spans spans' ->
  calculateUnemployment now (Some optPeriod) stemPeriod spans options = Some r ->
  calculateUnemployment now (Some optPeriod) stemPeriod spans' options = Some r' ->
  totalUsedDays r' <= totalUsedDays r
  /\ (status r' = violation -> status r = violation).
Proof.
  intros Hv Hv' Hincl Hr Hr'.
  pose proof (calculateUnemployment_totals _ _ _ _ _ _ Hr) as [Hu Ha].
  pose proof (calculateUnemployment_totals _ _ _ _ _ _ Hr') as [Hu' Ha'].
  cbv zeta in *.
  assert (Hle : totalUsedDays r' <= totalUsedDays r).
  { rewrite Hu, Hu'.
    assert (Hacc : forall p,
               usedDays (calculateUnemploymentForPeriod spans' p 0
                           (getNormalizedReferenceDate now options))
               <= usedDays (calculateUnemploymentForPeriod spans p 0
                              (getNormalizedReferenceDate now options))).
    { intros p. rewrite !accountant_used_count by assumption.
      apply countDays_le. intros d _. rewrite !negb_true_iff. intros Hn.
      destruct (employedOn spans (getNormalizedReferenceDate now options) d) eqn:E;
        [| reflexivity].
      rewrite (employedOn_incl _ _ _ _ Hincl E) in Hn. discriminate. }
    pose proof (Hacc optPeriod).
    destruct stemPeriod as [stem |]; [pose proof (Hacc stem) |]; lia. }
  split; [exact Hle |].
  rewrite (status_violation_iff _ _ _ _ _ _ Hr), (status_violation_iff _ _ _ _ _ _ Hr').
  rewrite Ha, Ha'. lia.
Qed.

Lemma more_employment_never_a_new_violation_witness :
  exists r r',
    calculateUnemployment 0 (Some Sample.opt) None [Sample.job 19520 19610]
      (Some (Sample.day 20000)) = Some r
    /\ calculateUnemployment 0 (Some Sample.opt) None
         [Sample.job 19600 19874; Sample.job 19520 19610] (Some (Sample.day 20000))
       = Some r'
    /\ totalUsedDays r' <= totalUsedDays r.
Proof.
  destruct (calculateUnemployment 0 (Some Sample.opt) None [Sample.job 19520 19610]
              (Some (Sample.day 20000))) as [r |] eqn:Hr; [| discriminate Hr].
  destruct (calculateUnemployment 0 (Some Sample.opt) None
              [Sample.job 19600 19874; Sample.job 19520 19610]
              (Some (Sample.day 20000))) as [r' |] eqn:Hr'; [| discriminate Hr'].
  exists r, r'. split; [reflexivity |]. split; [reflexivity |].
  apply (more_employment_never_a_new_violation 0 Sample.opt None
           [Sample.job 19520 19610] [Sample.job 19600 19874; Sample.job 19520 19610]
           (Some (Sample.day 20000)) r r').
  - repeat constructor.
  - repeat constructor.
  - intros span Hin. right. exact Hin.
  - exact Hr.
  - exact Hr'.
Defined.

(** X5. The summary of a period depends on the validated employment list
    only through the days of the window that have a job: two lists that
    employ on the same days of the window (jobs split, overlapping,
    duplicated, reordered, or lying outside the window) give the same
    summary. *)
Theorem same_days_with_a_job_same_summary (spans spans' : list EmploymentSpan.t)
    (eadPeriod : EADPeriod.t) (limit : Z) (referenceDate : Date) :
  Forall validSpan spans -> Forall validSpan spans' ->
  (forall d,
      dayOf (EADPeriod.startDate eadPeriod) <= d
      <= Z.min (dayOf (EADPeriod.endDate eadPeriod)) (dayOf referenceDate) ->
      employedOn spans referenceDate d = employedOn spans' referenceDate d) ->
  calculateUnemploymentForPeriod spans eadPeriod limit referenceDate
  = calculateUnemploymentForPeriod spans' eadPeriod limit referenceDate.
Proof.
  intros Hv Hv' Hsame. apply accountant_same_coverage; try assumption.
  intros d Hd. apply Hsame.
  unfold effectiveEnd, minDate in Hd. rewrite dayOf_min in Hd.
  unfold normalizeDate in Hd. rewrite dayOf_startOfDay in Hd. exact Hd.
Qed.

Lemma same_days_with_a_job_same_summary_witness :
  calculateUnemploymentForPeriod [Sample.job 19520 19600] Sample.opt 90 (Sample.day 19700)
  = calculateUnemploymentForPeriod
      [Sample.job 19561 19600; Sample.job 19520 19560; Sample.job 19800 19900;
       Sample.job 19530 19540]
      Sample.opt 90 (Sample.day 19700).
Proof.
  apply (same_days_with_a_job_same_summary
           [Sample.job 19520 19600]
           [Sample.job 19561 19600; Sample.job 19520 19560; Sample.job 19800 19900;
            Sample.job 19530 19540]
           Sample.opt 90 (Sample.day 19700)).
  - repeat constructor.
  - repeat constructor.
  - intros d Hd.
    change (dayOf (EADPeriod.startDate Sample.opt)) with 19509 in Hd.
    change (Z.min (dayOf (EADPeriod.endDate Sample.opt)) (dayOf (Sample.day 19700)))
      with 19700 in Hd.
    unfold employedOn, existsb, spanCoversDay.
    change (dayOf (EmploymentSpan.startDate (Sample.job 19520 19600))) with 19520.
    change (dayOf (resolvedEnd (Sample.job 19520 19600) (Sample.day 19700))) with 19600.
    change (dayOf (EmploymentSpan.startDate (Sample.job 19561 19600))) with 19561.
    change (dayOf (resolvedEnd (Sample.job 19561 19600) (Sample.day 19700))) with 19600.
    change (dayOf (EmploymentSpan.startDate (Sample.job 19520 19560))) with 19520.
    change (dayOf (resolvedEnd (Sample.job 19520 19560) (Sample.day 19700))) with 19560.
    change (dayOf (EmploymentSpan.startDate (Sample.job 19800 19900))) with 19800.
    change (dayOf (resolvedEnd (Sample.job 19800 19900) (Sample.day 19700))) with 19900.
    change (dayOf (EmploymentSpan.startDate (Sample.job 19530 19540))) with 19530.
    change (dayOf (resolvedEnd (Sample.job 19530 19540) (Sample.day 19700))) with 19540.
    destruct (Z.leb_spec 19520 d), (Z.leb_spec d 19600), (Z.leb_spec 19561 d),
      (Z.leb_spec d 19560), (Z.leb_spec 19800 d), (Z.leb_spec d 19900),
      (Z.leb_spec 19530 d), (Z.leb_spec d 19540); cbn [andb orb]; solve [reflexivity | lia].
Defined.

(** X6. The result of the entry point does not depend on the order of the
    validated employment list nor on entries being repeated: two lists
    with the same entries give the same result. *)
Theorem same_spans_same_result (now : Date) (optPeriod stemPeriod : option EADPeriod.t)
    (spans spans' : list EmploymentSpan.t) (options : option Date) :
  Forall validSpan spans ->
  (forall span, In span spans <-> In span spans') ->
  calculateUnemployment now optPeriod stemPeriod spans options
  = calculateUnemployment now optPeriod stemPeriod spans' options.
Proof.
  intros Hv Hsame.
  assert (Hv' : Forall validSpan spans').
  { rewrite Forall_forall in *. intros span Hin. apply Hv, Hsame, Hin. }
  assert (E : forall p limit ref,
             calculateUnemploymentForPeriod spans p limit ref
             = calculateUnemploymentForPeriod spans' p limit ref).
  { intros p limit ref. apply accountant_same_coverage; try assumption.
    intros d _. apply employedOn_same, Hsame. }
  unfold calculateUnemployment. destruct optPeriod as [opt |]; [| reflexivity].
  destruct stemPeriod as [stem |]; cbv zeta; rewrite !E; reflexivity.
Qed.

Lemma same_spans_same_result_witness :
  calculateUnemployment 0 (Some Sample.opt) (Some Sample.stem)
    [Sample.job 19520 19600; Sample.ongoing 19900] (Some (Sample.day 20000))
  = calculateUnemployment 0 (Some Sample.opt) (Some Sample.stem)
      [Sample.ongoing 19900; Sample.job 19520 19600; Sample.ongoing 19900]
      (Some (Sample.day 20000)).
Proof.
  apply (same_spans_same_result 0 (Some Sample.opt) (Some Sample.stem)
           [Sample.job 19520 19600; Sample.ongoing 19900]
           [Sample.ongoing 19900; Sample.job 19520 19600; Sample.ongoing 19900]
           (Some (Sample.day 20000))).
  - repeat constructor.
  - intros span. simpl. tauto.
Defined.

(** ** Time of day *)

Lemma clampSpanToEAD_normalizeSpan (span : EmploymentSpan.t) (eadPeriod : EADPeriod.t)
    (referenceDate : Date) :
  clampSpanToEAD (normalizeSpan span) eadPeriod referenceDate
  = clampSpanToEAD span eadPeriod referenceDate.
Proof.
  unfold clampSpanToEAD, resolvedEnd, normalizeSpan, normalizeDate.
  cbn [EmploymentSpan.startDate EmploymentSpan.endDate].
  destruct (EmploymentSpan.endDate span); cbn [option_map];
    rewrite !startOfDay_idem; reflexivity.
Qed.

Lemma calculateEmployedDays_normalizeSpan (spans : list EmploymentSpan.t)
    (eadPeriod : EADPeriod.t) (referenceDate : Date) :
  calculateEmployedDays (map normalizeSpan spans) eadPeriod referenceDate
  = calculateEmployedDays spans eadPeriod referenceDate.
Proof.
  unfold calculateEmployedDays. rewrite map_map.
  rewrite (map_ext _ (fun span => clampSpanToEAD span eadPeriod referenceDate));
    [reflexivity |].
  intros span. apply clampSpanToEAD_normalizeSpan.
Qed.

Lemma accountant_normalized_inputs (spans : list EmploymentSpan.t)
    (eadPeriod : EADPeriod.t) (limit : Z) (referenceDate : Date) :
  calculateUnemploymentForPeriod (map normalizeSpan spans) (normalizePeriod eadPeriod)
    limit referenceDate
  = calculateUnemploymentForPeriod spans eadPeriod limit referenceDate.
Proof.
  assert (Heff : effectiveEnd (normalizePeriod eadPeriod) referenceDate
                 = effectiveEnd eadPeriod referenceDate).
  { unfold effectiveEnd, normalizePeriod, normalizeDate. cbn [EADPeriod.endDate].
    rewrite startOfDay_idem. reflexivity. }
  assert (Hstart : normalizeDate (EADPeriod.startDate (normalizePeriod eadPeriod))
                   = normalizeDate (EADPeriod.startDate eadPeriod)).
  { unfold normalizePeriod, normalizeDate. cbn [EADPeriod.startDate].
    apply startOfDay_idem. }
  assert (Hadj : adjustedPeriod (normalizePeriod eadPeriod) referenceDate
                 = adjustedPeriod eadPeriod referenceDate).
  { unfold adjustedPeriod. rewrite Heff, Hstart. reflexivity. }
  unfold calculateUnemploymentForPeriod. rewrite Heff, Hstart, Hadj.
  destruct (isBefore _ _); [reflexivity |].
  cbv zeta. rewrite calculateEmployedDays_normalizeSpan. reflexivity.
Qed.

(** X7. The result depends only on the calendar days of its dates: moving
    every date of the input (the clock, the injected reference date, the
    periods' and the spans' dates) to the start of its day changes
    nothing. *)
Theorem time_of_day_is_irrelevant (now : Date) (optPeriod stemPeriod : option EADPeriod.t)
    (spans : list EmploymentSpan.t) (options : option Date) :
  calculateUnemployment (normalizeDate now)
    (option_map normalizePeriod optPeriod) (option_map normalizePeriod stemPeriod)
    (map normalizeSpan spans) (option_map normalizeDate options)
  = calculateUnemployment now optPeriod stemPeriod spans options.
Proof.
  assert (Href : getNormalizedReferenceDate (normalizeDate now)
                   (option_map normalizeDate options)
                 = getNormalizedReferenceDate now options).
  { unfold getNormalizedReferenceDate, normalizeDate.
    destruct options; apply startOfDay_idem. }
  unfold calculateUnemployment.
  destruct optPeriod as [opt |]; [| reflexivity]. cbn [option_map]. cbv zeta.
  rewrite Href, !accountant_normalized_inputs.
  destruct stemPeriod as [stem |]; cbn [option_map];
    [rewrite !accountant_normalized_inputs |]; reflexivity.
Qed.

(** ** As time passes *)

Lemma spanCoversDay_later_reference (span : EmploymentSpan.t)
    (referenceDate referenceDate' : Date) (d : Z) :
  referenceDate <= referenceDate' -> d <= dayOf referenceDate ->
  spanCoversDay referenceDate span d = spanCoversDay referenceDate' span d.
Proof.
  intros Hle Hd. unfold spanCoversDay, resolvedEnd.
  destruct (EmploymentSpan.endDate span); [reflexivity |].
  apply dayOf_mono in Hle.
  destruct (Z.leb_spec d (dayOf referenceDate)), (Z.leb_spec d (dayOf referenceDate'));
    try reflexivity; lia.
Qed.

Lemma employedOn_later_reference (spans : list EmploymentSpan.t)
    (referenceDate referenceDate' : Date) (d : Z) :
  referenceDate <= referenceDate' -> d <= dayOf referenceDate ->
  employedOn spans referenceDate d = employedOn spans referenceDate' d.
Proof.
  intros Hle Hd. unfold employedOn.
  induction spans as [| span spans IH]; [reflexivity |].
  cbn [existsb]. rewrite IH.
  rewrite (spanCoversDay_later_reference span _ _ d Hle Hd). reflexivity.
Qed.

Lemma accountant_used_later_reference (spans : list EmploymentSpan.t)
    (eadPeriod : EADPeriod.t) (limit limit' : Z) (referenceDate referenceDate' : Date) :
  Forall validSpan spans -> referenceDate <= referenceDate' ->
  usedDays (calculateUnemploymentForPeriod spans eadPeriod limit referenceDate)
  <= usedDays (calculateUnemploymentForPeriod spans eadPeriod limit' referenceDate').
Proof.
  intros Hv Hle. rewrite !accountant_used_count by exact Hv.
  set (lo := dayOf (EADPeriod.startDate eadPeriod)).
  assert (Hhi : dayOf (effectiveEnd eadPeriod referenceDate)
                <= dayOf (effectiveEnd eadPeriod referenceDate')).
  { apply dayOf_mono. unfold effectiveEnd, minDate. lia. }
  assert (Href : dayOf (effectiveEnd eadPeriod referenceDate) <= dayOf referenceDate).
  { apply dayOf_mono. unfold effectiveEnd, minDate. lia. }
  rewrite (countDays_ext _ (fun d => negb (employedOn spans referenceDate' d))).
  - apply countDays_longer. unfold daysInRange. lia.
  - intros d Hd. apply daysInRange_spec in Hd. f_equal.
    apply employedOn_later_reference; [exact Hle | lia].
Qed.

(** X8. With a validated employment list, the used days of a period never
    go down as the reference date moves forward. *)
Theorem usedDays_never_decrease_with_time (spans : list EmploymentSpan.t)
    (eadPeriod : EADPeriod.t) (limit : Z) (referenceDate referenceDate' : Date) :
  Forall validSpan spans -> referenceDate <= referenceDate' ->
  usedDays (calculateUnemploymentForPeriod spans eadPeriod limit referenceDate)
  <= usedDays (calculateUnemploymentForPeriod spans eadPeriod limit referenceDate').
Proof. apply accountant_used_later_reference. Qed.

Lemma usedDays_never_decrease_with_time_witness :
  usedDays (calculateUnemploymentForPeriod
              [Sample.job 19520 19600; Sample.ongoing 19650] Sample.opt 90
              (Sample.day 19640))
  <= usedDays (calculateUnemploymentForPeriod
                 [Sample.job 19520 19600; Sample.ongoing 19650] Sample.opt 90
                 (Sample.day 19700)).
Proof.
  apply (usedDays_never_decrease_with_time
           [Sample.job 19520 19600; Sample.ongoing 19650] Sample.opt 90
           (Sample.day 19640) (Sample.day 19700)).
  - repeat constructor.
  - vm_compute. discriminate.
Defined.

(** X9. At the entry point, for the same periods and validated employment
    list, a later reference date never gives fewer total used days, and a
    violation at one reference date is a violation at every later one. *)
Theorem violation_is_permanent (now : Date) (optPeriod : EADPeriod.t)
    (stemPeriod : option EADPeriod.t) (spans : list EmploymentSpan.t)
    (referenceDate referenceDate' : Date) (r r' : CalculationResult) :
  Forall validSpan spans -> referenceDate <= referenceDate' ->
  calculateUnemployment now (Some optPeriod) stemPeriod spans (Some referenceDate) = Some r ->
  calculateUnemployment now (Some optPeriod) stemPeriod spans (Some referenceDate') = Some r' ->
  totalUsedDays r <= totalUsedDays r'
  /\ (status r = violation -> status r' = violation).
Proof.
  intros Hv Hle Hr Hr'.
  pose proof (calculateUnemployment_totals _ _ _ _ _ _ Hr) as [Hu Ha].
  pose proof (calculateUnemployment_totals _ _ _ _ _ _ Hr') as [Hu' Ha'].
  cbv zeta in *.
  assert (Hn : getNormalizedReferenceDate now (Some referenceDate)
               <= getNormalizedReferenceDate now (Some referenceDate'))
    by (apply startOfDay_mono, Hle).
  assert (Hmono : totalUsedDays r <= totalUsedDays r').
  { rewrite Hu, Hu'.
    pose proof (accountant_used_later_reference spans optPeriod 0 0 _ _ Hv Hn).
    destruct stemPeriod as [stem |]; [| lia].
    pose proof (accountant_used_later_reference spans stem 0 0 _ _ Hv Hn). lia. }
  split; [exact Hmono |].
  rewrite (status_violation_iff _ _ _ _ _ _ Hr), (status_violation_iff _ _ _ _ _ _ Hr').
  rewrite Ha, Ha'. lia.
Qed.

Lemma violation_is_permanent_witness :
  exists r r',
    calculateUnemployment 0 (Some Sample.opt) None [Sample.job 19520 19600]
      (Some (Sample.day 19640)) = Some r
    /\ calculateUnemployment 0 (Some Sample.opt) None [Sample.job 19520 19600]
         (Some (Sample.day 19700)) = Some r'
    /\ totalUsedDays r <= totalUsedDays r'.
Proof.
  destruct (calculateUnemployment 0 (Some Sample.opt) None [Sample.job 19520 19600]
              (Some (Sample.day 19640))) as [r |] eqn:Hr; [| discriminate Hr].
  destruct (calculateUnemployment 0 (Some Sample.opt) None [Sample.job 19520 19600]
              (Some (Sample.day 19700))) as [r' |] eqn:Hr'; [| discriminate Hr'].
  exists r, r'. split; [reflexivity |]. split; [reflexivity |].
  apply (violation_is_permanent 0 Sample.opt None [Sample.job 19520 19600]
           (Sample.day 19640) (Sample.day 19700) r r').
  - repeat constructor.
  - vm_compute. discriminate.
  - exact Hr.
  - exact Hr'.
Defined.

(** ** Used, remaining and percentage *)

Lemma summary_remaining_formula (spans : list EmploymentSpan.t) (eadPeriod : EADPeriod.t)
    (limit : Z) (referenceDate : Date) :
  0 <= limit ->
  remainingDays (calculateUnemploymentForPeriod spans eadPeriod limit referenceDate)
  = Z.max 0 (limit
             - usedDays (calculateUnemploymentForPeriod spans eadPeriod limit referenceDate)).
Proof.
  intros Hl. unfold calculateUnemploymentForPeriod.
  destruct (isBefore _ _); cbn [remainingDays usedDays]; lia.
Qed.

Lemma percentage_full (used limit : Z) :
  0 < limit ->
  (inject_Z 100 <= inject_Z used / inject_Z limit * inject_Z 100)%Q <-> limit <= used.
Proof.
  intros H. destruct limit as [| l | l]; try lia.
  unfold Qle, Qdiv, Qmult, Qinv, inject_Z. cbn [Qnum Qden]. lia.
Qed.

Lemma forallFrom_spec (f : Z -> bool) (n : nat) (lo : Z) :
  forallFrom f lo n = true -> forall d, lo <= d < lo + Z.of_nat n -> f d = true.
Proof.
  revert lo. induction n as [| k IH]; intros lo H d Hd.
  - simpl in Hd. lia.
  - cbn [forallFrom] in H. apply andb_true_iff in H. destruct H as [H0 H].
    destruct (Z.eq_dec d lo) as [-> | Hne]; [exact H0 |].
    apply (IH (lo + 1) H). lia.
Qed.

Lemma forallFrom_upto (f : Z -> bool) (lo len : Z) :
  forallFrom f lo (Z.to_nat len) = true -> forall d, lo <= d < lo + len -> f d = true.
Proof.
  intros H d Hd. apply (forallFrom_spec f (Z.to_nat len) lo H).
  rewrite Z2Nat.id by lia. exact Hd.
Qed.

(** The order facts hold on the whole checked range, by computation. *)
Lemma percentageOrdered_everywhere :
  forallFrom
    (fun limit =>
       forallFrom (fun used => percentageOrdered limit used) 0
         (Z.to_nat (maxCheckedUsedDays + 1)))
    1 (Z.to_nat TOTAL_UNEMPLOYMENT_LIMIT_WITH_STEM)
  = true.
Proof. vm_compute. reflexivity. Qed.

Lemma percentageOrdered_checked (limit used : Z) :
  0 < limit <= TOTAL_UNEMPLOYMENT_LIMIT_WITH_STEM ->
  0 <= used <= maxCheckedUsedDays ->
  percentageOrdered limit used = true.
Proof.
  intros Hl Hu.
  assert (H1 : forallFrom (fun used => percentageOrdered limit used) 0
                 (Z.to_nat (maxCheckedUsedDays + 1)) = true).
  { refine (forallFrom_upto
              (fun limit =>
                 forallFrom (fun used => percentageOrdered limit used) 0
                   (Z.to_nat (maxCheckedUsedDays + 1)))
              1 TOTAL_UNEMPLOYMENT_LIMIT_WITH_STEM percentageOrdered_everywhere limit _).
    lia. }
  refine (forallFrom_upto (fun used => percentageOrdered limit used) 0
            (maxCheckedUsedDays + 1) H1 used _).
  lia.
Qed.

(** X10. With a limit that is not negative (as the entry point passes),
    in both branches of the accountant: remaining days are
    [max 0 (limit - used)], so used and remaining days add up to the
    limit until it is exhausted and remaining days are zero from then on.
    With a positive limit the exact quotient [used / limit * 100] is not
    negative and reaches 100 exactly when the used days reach the limit;
    and so does the binary64 percentage of the summary, for every limit
    the entry point can pass (1 to 150) and up to 10000 used days. *)
Theorem summary_used_remaining_percentage (spans : list EmploymentSpan.t)
    (eadPeriod : EADPeriod.t) (limit : Z) (referenceDate : Date) :
  0 <= limit ->
  let summary := calculateUnemploymentForPeriod spans eadPeriod limit referenceDate in
  0 <= usedDays summary
  /\ remainingDays summary = Z.max 0 (limit - usedDays summary)
  /\ (usedDays summary <= limit -> usedDays summary + remainingDays summary = limit)
  /\ (remainingDays summary = 0 <-> limit <= usedDays summary)
  /\ (0 < limit ->
      let exact := (inject_Z (usedDays summary) / inject_Z limit * inject_Z 100)%Q in
      ((inject_Z 100 <= exact)%Q <-> limit <= usedDays summary)
      /\ (0 <= exact)%Q)
  /\ (0 < limit <= 150 -> usedDays summary <= 10000 ->
      (PrimFloat.leb 100 (percentage summary) = true <-> limit <= usedDays summary)
      /\ PrimFloat.leb 0 (percentage summary) = true).
Proof.
  intros Hl summary.
  pose proof (summary_usedDays_nonneg spans eadPeriod limit referenceDate) as Hu.
  pose proof (summary_remaining_formula spans eadPeriod limit referenceDate Hl) as Hr.
  fold summary in Hu, Hr.
  split; [exact Hu |]. split; [exact Hr |]. split; [lia |]. split; [lia |]. split.
  - intros Hpos exact. split; [apply percentage_full, Hpos |].
    unfold exact. destruct limit as [| l | l]; try lia.
    unfold Qle, Qdiv, Qmult, Qinv, inject_Z. cbn [Qnum Qden]. lia.
  - intros Hlim Hused.
    pose proof (percentageOrdered_checked limit (usedDays summary)) as Hc.
    unfold percentageOrdered in Hc. cbv zeta in Hc.
    rewrite andb_true_iff in Hc.
    destruct Hc as [H0 H100];
      [unfold TOTAL_UNEMPLOYMENT_LIMIT_WITH_STEM; lia
      | unfold maxCheckedUsedDays; lia |].
    apply Bool.eqb_prop in H100.
    assert (Hp : percentage summary
                 = PrimFloat.mul
                     (PrimFloat.div (Binary64.ofZ (usedDays summary)) (Binary64.ofZ limit))
                     (Binary64.ofZ 100)
                 \/ (percentage summary = 0%float /\ usedDays summary = 0)).
    { unfold summary, calculateUnemploymentForPeriod.
      destruct (isBefore _ _); cbn [percentage usedDays].
      - right. split; reflexivity.
      - left. destruct (Z.ltb_spec 0 limit); [reflexivity | lia]. }
    destruct Hp as [Hp | [Hp Hz]].
    + rewrite Hp, H100, Z.leb_le. split; [reflexivity | exact H0].
    + rewrite Hp, Hz. split; [| reflexivity].
      split; [intros H; discriminate H | lia].
Qed.

Lemma summary_used_remaining_percentage_witness :
  usedDays (calculateUnemploymentForPeriod [Sample.job 19520 19874] Sample.opt 90
              (Sample.day 20000))
  + remainingDays (calculateUnemploymentForPeriod [Sample.job 19520 19874] Sample.opt 90
                     (Sample.day 20000))
  = 90.
Proof.
  apply (summary_used_remaining_percentage [Sample.job 19520 19874] Sample.opt 90
           (Sample.day 20000)).
  - lia.
  - vm_compute. discriminate.
Defined.

(** X11. In every result of the entry point the remaining days of the last
    phase (phase 2 when there is one, else phase 1) are what is left of the
    total allowance, [max 0 (totalAllowedDays - totalUsedDays)]: zero in a
    violation, and otherwise total used days plus these remaining days make
    up the total allowed days. *)
Theorem last_phase_remaining_is_total_remaining (now : Date) (optPeriod : EADPeriod.t)
    (stemPeriod : option EADPeriod.t) (spans : list EmploymentSpan.t)
    (options : option Date) (r : CalculationResult) :
  calculateUnemployment now (Some optPeriod) stemPeriod spans options = Some r ->
  let last := match phase2 r with Some summary2 => summary2 | None => phase1 r end in
  remainingDays last = Z.max 0 (totalAllowedDays r - totalUsedDays r)
  /\ (status r = violation -> remainingDays last = 0)
  /\ (status r <> violation ->
      totalUsedDays r + remainingDays last = totalAllowedDays r).
Proof.
  intros H last.
  pose proof (status_violation_iff _ _ _ _ _ _ H) as Hviol.
  apply calculateUnemployment_inv in H. destruct H as (H1 & H2 & H3 & _).
  cbv zeta in *.
  assert (Hu1 : 0 <= usedDays (phase1 r))
    by (rewrite H1; apply summary_usedDays_nonneg).
  assert (Hrem : remainingDays last = Z.max 0 (totalAllowedDays r - totalUsedDays r)).
  { unfold last. destruct stemPeriod as [stem |]; destruct H2 as [H2 Ha];
      rewrite H2 in *; rewrite H3, Ha.
    - rewrite summary_remaining_formula by lia.
      pose proof (summary_usedDays_nonneg spans stem
                    (Z.max 0 (TOTAL_UNEMPLOYMENT_LIMIT_WITH_STEM - usedDays (phase1 r)))
                    (getNormalizedReferenceDate now options)).
      lia.
    - rewrite H1. rewrite summary_remaining_formula by (unfold OPT_UNEMPLOYMENT_LIMIT; lia).
      lia. }
  split; [exact Hrem |]. split.
  - intros Hv. apply Hviol in Hv. lia.
  - intros Hv. assert (~ totalAllowedDays r < totalUsedDays r) by tauto. lia.
Qed.

Lemma last_phase_remaining_is_total_remaining_witness :
  exists r,
    calculateUnemployment 0 (Some Sample.opt) (Some Sample.stem)
      [Sample.job 19539 19874; Sample.job 19885 20604] (Some (Sample.day 21000)) = Some r
    /\ option_map remainingDays (phase2 r)
       = Some (Z.max 0 (totalAllowedDays r - totalUsedDays r)).
Proof.
  destruct (calculateUnemployment 0 (Some Sample.opt) (Some Sample.stem)
              [Sample.job 19539 19874; Sample.job 19885 20604]
              (Some (Sample.day 21000))) as [r |] eqn:Hr; [| discriminate Hr].
  exists r. split; [reflexivity |].
  pose proof (last_phase_remaining_is_total_remaining 0 Sample.opt (Some Sample.stem)
                [Sample.job 19539 19874; Sample.job 19885 20604]
                (Some (Sample.day 21000)) r Hr) as [H _].
  assert (Hp : exists s, phase2 r = Some s).
  { revert Hr. vm_compute. intros [= <-]. eexists. reflexivity. }
  destruct Hp as [s Hs]. rewrite Hs in *. cbn [option_map]. f_equal. exact H.
Defined.

(** ** The validators *)

Lemma trimStart_empty (s : list N) : Js.trimStart s = [] <-> blank s = true.
Proof.
  unfold blank. induction s as [| c s IH]; simpl.
  - tauto.
  - destruct (Js.isWhiteSpace c); simpl; [exact IH |].
    split; discriminate.
Qed.

Lemma blank_trimStart (s : list N) : blank (Js.trimStart s) = blank s.
Proof.
  unfold blank. induction s as [| c s IH]; simpl.
  - reflexivity.
  - destruct (Js.isWhiteSpace c) eqn:E; simpl; [exact IH | rewrite E; reflexivity].
Qed.

Lemma blank_rev (s : list N) : blank (rev s) = blank s.
Proof.
  unfold blank. induction s as [| c s IH]; simpl.
  - reflexivity.
  - rewrite forallb_app, IH. simpl. rewrite andb_true_r. apply andb_comm.
Qed.

Lemma rev_empty (s : list N) : rev s = [] <-> s = [].
Proof.
  split; intros H.
  - rewrite <- (rev_involutive s), H. reflexivity.
  - rewrite H. reflexivity.
Qed.

(** Trimming leaves nothing exactly of the strings made of white space. *)
Lemma trim_empty (s : list N) : Js.trim s = [] <-> blank s = true.
Proof.
  unfold Js.trim. rewrite rev_empty, trimStart_empty, blank_rev, blank_trimStart.
  reflexivity.
Qed.

Lemma isEmpty_true (s : list N) : Js.isEmpty s = true <-> s = [].
Proof. destruct s; simpl; split; (reflexivity || discriminate). Qed.

Lemma name_required (name : list N) :
  (Js.isEmpty name || Js.isEmpty (Js.trim name)) = blank name.
Proof.
  apply Bool.eq_true_iff_eq. rewrite orb_true_iff, !isEmpty_true, trim_empty.
  split; [intros [-> | H]; [reflexivity | exact H] | intros H; right; exact H].
Qed.

(** X12. [validateEmploymentSpan] accepts a span exactly when its employer
    label has a code unit that [String.prototype.trim] does not remove
    (one that is neither white space nor a line terminator of ECMAScript,
    Unicode ones included) and its end date, when there is one, is not
    before its start date (an end equal to the start is accepted).  A
    blank label is reported first, whatever the dates. *)
Theorem validateEmploymentSpan_spec (span : EmploymentSpan.t) :
  (validateEmploymentSpan span = None
   <-> blank (EmploymentSpan.employerName span) = false
       /\ match EmploymentSpan.endDate span with
          | Some e => EmploymentSpan.startDate span <= e
          | None => True
          end)
  /\ (blank (EmploymentSpan.employerName span) = true ->
      validateEmploymentSpan span = Some "Employer name is required"%string)
  /\ (blank (EmploymentSpan.employerName span) = false ->
      forall e, EmploymentSpan.endDate span = Some e ->
                e < EmploymentSpan.startDate span ->
                validateEmploymentSpan span
                = Some "End date must be after start date"%string).
Proof.
  unfold validateEmploymentSpan, Js.notDate, isBefore. rewrite name_required.
  destruct (blank (EmploymentSpan.employerName span)).
  - split; [split; [discriminate | intros [H _]; discriminate H] |].
    split; [reflexivity | discriminate].
  - destruct (EmploymentSpan.endDate span) as [e |].
    + destruct (Z.ltb_spec e (EmploymentSpan.startDate span)).
      * split; [split; [discriminate | intros [_ H']; lia] |].
        split; [discriminate |]. intros _ e' [= <-] _. reflexivity.
      * split; [split; [intros _; split; [reflexivity | assumption] | reflexivity] |].
        split; [discriminate |]. intros _ e' [= <-] Hlt. lia.
    + split; [split; [intros _; split; [reflexivity | exact I] | reflexivity] |].
      split; [discriminate |]. intros _ e' H. discriminate H.
Qed.

Lemma validateEmploymentSpan_spec_witness :
  validateEmploymentSpan
    (EmploymentSpan.mk [160; 8232; 32; 12288]%N (Sample.day 5) (Some (Sample.day 1)))
  = Some "Employer name is required"%string
  /\ validateEmploymentSpan
       (EmploymentSpan.mk (Js.str " Acme ") (Sample.day 5) (Some (Sample.day 1)))
     = Some "End date must be after start date"%string.
Proof.
  split.
  - apply (validateEmploymentSpan_spec
             (EmploymentSpan.mk [160; 8232; 32; 12288]%N (Sample.day 5)
                (Some (Sample.day 1)))).
    reflexivity.
  - apply (validateEmploymentSpan_spec
             (EmploymentSpan.mk (Js.str " Acme ") (Sample.day 5) (Some (Sample.day 1))))
      with (e := Sample.day 1).
    + reflexivity.
    + reflexivity.
    + reflexivity.
Defined.

(** X13. [validateEADPeriod] accepts a period exactly when its end is not
    before its start, and reports "End date must be after start date"
    otherwise; a period it accepts has at least one day, and so has a span
    with an end date that [validateEmploymentSpan] accepts. *)
Theorem validated_dates_have_a_day (period : EADPeriod.t) (span : EmploymentSpan.t) :
  (validateEADPeriod period = None
   <-> EADPeriod.startDate period <= EADPeriod.endDate period)
  /\ (EADPeriod.endDate period < EADPeriod.startDate period ->
      validateEADPeriod period = Some "End date must be after start date"%string)
  /\ (validateEADPeriod period = None ->
      1 <= calculateDaysBetween (EADPeriod.startDate period) (EADPeriod.endDate period))
  /\ (validateEmploymentSpan span = None ->
      forall e, EmploymentSpan.endDate span = Some e ->
                1 <= calculateDaysBetween (EmploymentSpan.startDate span) e).
Proof.
  assert (Hp : validateEADPeriod period = None
               <-> EADPeriod.startDate period <= EADPeriod.endDate period).
  { unfold validateEADPeriod, Js.notDate, isBefore.
    destruct (Z.ltb_spec (EADPeriod.endDate period) (EADPeriod.startDate period));
      split; try discriminate; try reflexivity; lia. }
  split; [exact Hp |]. split; [| split].
  - intros Hlt. unfold validateEADPeriod, Js.notDate, isBefore.
    apply Z.ltb_lt in Hlt. rewrite Hlt. reflexivity.
  - intros H. apply Hp in H. apply dayOf_mono in H.
    rewrite calculateDaysBetween_dayOf. lia.
  - intros H e He. apply validSpan_dates in H. rewrite He in H.
    apply dayOf_mono in H. rewrite calculateDaysBetween_dayOf. lia.
Qed.

Lemma validated_dates_have_a_day_witness :
  1 <= calculateDaysBetween (EADPeriod.startDate Sample.opt) (EADPeriod.endDate Sample.opt)
  /\ 1 <= calculateDaysBetween (Sample.day 19520) (Sample.day 19520 + 5).
Proof.
  destruct (validated_dates_have_a_day Sample.opt
              (EmploymentSpan.mk (Js.str "Acme") (Sample.day 19520)
                 (Some (Sample.day 19520 + 5))))
    as (_ & _ & H3 & H4).
  split.
  - apply H3. reflexivity.
  - apply (H4 eq_refl (Sample.day 19520 + 5) eq_refl).
Defined.

(** ** Two periods in a row *)

Lemma countDays_append (f : Z -> bool) (n m : nat) (lo : Z) :
  countDays f lo (n + m) = countDays f lo n + countDays f (lo + Z.of_nat n) m.
Proof.
  revert lo. induction n as [| k IH]; intros lo.
  - simpl. rewrite Z.add_0_r. reflexivity.
  - cbn [countDays Nat.add]. rewrite IH.
    replace (lo + 1 + Z.of_nat k) with (lo + Z.of_nat (S k)) by lia. lia.
Qed.

Lemma countDays_split (f : Z -> bool) (lo mid hi : Z) :
  lo <= mid + 1 -> mid <= hi ->
  countDays f lo (daysInRange lo hi)
  = countDays f lo (daysInRange lo mid) + countDays f (mid + 1) (daysInRange (mid + 1) hi).
Proof.
  intros H1 H2. unfold daysInRange.
  replace (Z.to_nat (hi - lo + 1))
    with (Z.to_nat (mid - lo + 1) + Z.to_nat (hi - (mid + 1) + 1))%nat by lia.
  rewrite countDays_append. do 2 f_equal. lia.
Qed.

(** X14. When the second period starts the day after the first one ends
    (and neither is reversed), the total used days of a validated
    employment list are the days without a job from the start of the first
    period to the earlier of the end of the second and the reference date:
    the two phases count one stretch of days, each day once. *)
Theorem contiguous_periods_count_once (now : Date) (optPeriod stemPeriod : EADPeriod.t)
    (spans : list EmploymentSpan.t) (options : option Date) (r : CalculationResult) :
  Forall validSpan spans ->
  dayOf (EADPeriod.startDate optPeriod) <= dayOf (EADPeriod.endDate optPeriod) ->
  dayOf (EADPeriod.startDate stemPeriod) = dayOf (EADPeriod.endDate optPeriod) + 1 ->
  dayOf (EADPeriod.startDate stemPeriod) <= dayOf (EADPeriod.endDate stemPeriod) ->
  calculateUnemployment now (Some optPeriod) (Some stemPeriod) spans options = Some r ->
  let referenceDate := getNormalizedReferenceDate now options in
  totalUsedDays r
  = countDays (fun d => negb (employedOn spans referenceDate d))
      (dayOf (EADPeriod.startDate optPeriod))
      (daysInRange (dayOf (EADPeriod.startDate optPeriod))
         (Z.min (dayOf (EADPeriod.endDate stemPeriod)) (dayOf referenceDate))).
Proof.
  intros Hv Hopt Hnext Hstem Hr referenceDate.
  pose proof (calculateUnemployment_totals _ _ _ _ _ _ Hr) as [Hu _].
  cbv zeta in Hu. fold referenceDate in Hu. rewrite Hu.
  rewrite !accountant_used_count by exact Hv.
  unfold effectiveEnd, minDate, normalizeDate. rewrite !dayOf_min, !dayOf_startOfDay.
  set (f := fun d => negb (employedOn spans referenceDate d)).
  set (a := dayOf (EADPeriod.startDate optPeriod)) in *.
  set (b := dayOf (EADPeriod.endDate optPeriod)) in *.
  set (c := dayOf (EADPeriod.endDate stemPeriod)) in *.
  set (t := dayOf referenceDate).
  rewrite Hnext.
  destruct (Z.le_gt_cases t b) as [Hle | Hgt].
  - replace (Z.min b t) with t by lia. replace (Z.min c t) with t by lia.
    replace (daysInRange (b + 1) t) with 0%nat by (unfold daysInRange; lia).
    simpl. lia.
  - replace (Z.min b t) with b by lia.
    rewrite (countDays_split f a b (Z.min c t)) by lia. reflexivity.
Qed.

Lemma contiguous_periods_count_once_witness :
  exists r,
    calculateUnemployment 0 (Some Sample.opt) (Some Sample.stem)
      [Sample.job 19539 19870; Sample.job 19885 20604] (Some (Sample.day 20000)) = Some r
    /\ totalUsedDays r
       = countDays
           (fun d =>
              negb (employedOn [Sample.job 19539 19870; Sample.job 19885 20604]
                      (Sample.day 20000) d))
           19509 492.
Proof.
  destruct (calculateUnemployment 0 (Some Sample.opt) (Some Sample.stem)
              [Sample.job 19539 19870; Sample.job 19885 20604]
              (Some (Sample.day 20000))) as [r |] eqn:Hr; [| discriminate Hr].
  exists r. split; [reflexivity |].
  apply (contiguous_periods_count_once 0 Sample.opt Sample.stem
           [Sample.job 19539 19870; Sample.job 19885 20604]
           (Some (Sample.day 20000)) r).
  - repeat constructor.
  - vm_compute. discriminate.
  - reflexivity.
  - vm_compute. discriminate.
  - exact Hr.
Defined.

(** ** What the merge loop is made of *)

Lemma mergeLoop_length (rest : list MergedSpan.t) (current : MergedSpan.t) :
  (1 <= List.length (mergeLoop [] current rest) <= S (List.length rest))%nat.
Proof.
  revert current. induction rest as [| next rest IH]; intros current.
  - simpl. lia.
  - destruct (Z.le_gt_cases (gap current next) 1) as [H | H].
    + rewrite mergeLoop_coalesce by exact H.
      specialize (IH (extend current next)). simpl. lia.
    + rewrite mergeLoop_separate by exact H.
      specialize (IH next). simpl. lia.
Qed.

(** X15. On any input, sorted or not: the merge returns no more intervals
    than it is given and at least one unless it is given none; every
    interval it returns starts where an input interval starts and ends
    where an input interval ends; and the first one starts where the first
    input interval starts. *)
Theorem mergeOverlappingSpans_uses_input_dates (spans : list MergedSpan.t) :
  (List.length (mergeOverlappingSpans spans) <= List.length spans)%nat
  /\ (mergeOverlappingSpans spans = [] <-> spans = [])
  /\ Forall (fun m =>
               In (MergedSpan.startDate m) (map MergedSpan.startDate spans)
               /\ In (MergedSpan.endDate m) (map MergedSpan.endDate spans))
       (mergeOverlappingSpans spans)
  /\ (forall first rest, spans = first :: rest ->
        exists m tl, mergeOverlappingSpans spans = m :: tl
                     /\ MergedSpan.startDate m = MergedSpan.startDate first).
Proof.
  split; [| split; [| split]].
  - destruct spans as [| first rest]; [apply Nat.le_refl |].
    apply (mergeLoop_length rest first).
  - destruct spans as [| first rest]; [tauto |].
    pose proof (mergeLoop_length rest first) as H. simpl.
    split; [| discriminate].
    intros E. rewrite E in H. simpl in H. lia.
  - apply mergeOverlappingSpans_Forall.
    + intros a b [Ha1 Ha2] [Hb1 Hb2]. split; [exact Ha1 |].
      unfold extend, maxDate. cbn [MergedSpan.endDate].
      destruct (Z.max_spec (MergedSpan.endDate a) (MergedSpan.endDate b))
        as [[_ ->] | [_ ->]]; assumption.
    + apply Forall_forall. intros m Hm. split; apply in_map, Hm.
  - intros first rest ->. apply (mergeLoop_head rest first).
Qed.

Lemma mergeOverlappingSpans_uses_input_dates_witness :
  exists m tl,
    mergeOverlappingSpans [Sample.span 5 6; Sample.span 1 2; Sample.span 7 9] = m :: tl
    /\ MergedSpan.startDate m = MergedSpan.startDate (Sample.span 5 6).
Proof.
  apply (mergeOverlappingSpans_uses_input_dates
           [Sample.span 5 6; Sample.span 1 2; Sample.span 7 9])
    with (rest := [Sample.span 1 2; Sample.span 7 9]).
  reflexivity.
Defined.

(** ** Someone who never had a job *)

Lemma countDays_all (n : nat) (lo : Z) : countDays (fun _ => true) lo n = Z.of_nat n.
Proof.
  revert lo. induction n as [| k IH]; intros lo.
  - reflexivity.
  - cbn [countDays]. rewrite IH. lia.
Qed.

(** Without any employment every day of the window is a used day. *)
Lemma accountant_no_employment (eadPeriod : EADPeriod.t) (limit : Z) (referenceDate : Date) :
  usedDays (calculateUnemploymentForPeriod [] eadPeriod limit referenceDate)
  = Z.of_nat (daysInRange (dayOf (EADPeriod.startDate eadPeriod))
                (Z.min (dayOf (EADPeriod.endDate eadPeriod)) (dayOf referenceDate))).
Proof.
  rewrite accountant_used_count by constructor.
  unfold effectiveEnd, minDate, normalizeDate. rewrite dayOf_min, dayOf_startOfDay.
  apply countDays_all.
Qed.

Lemma reference_day (now referenceDate : Date) :
  dayOf (getNormalizedReferenceDate now (Some referenceDate)) = dayOf referenceDate.
Proof. apply dayOf_startOfDay. Qed.

(** The three statuses in integers. *)
Lemma status_in_integers (now : Date) (optPeriod : EADPeriod.t)
    (stemPeriod : option EADPeriod.t) (spans : list EmploymentSpan.t)
    (options : option Date) (r : CalculationResult) :
  calculateUnemployment now (Some optPeriod) stemPeriod spans options = Some r ->
  (status r = violation <-> totalAllowedDays r < totalUsedDays r)
  /\ (status r = warning
      <-> totalUsedDays r <= totalAllowedDays r
          /\ 4 * totalAllowedDays r <= 5 * totalUsedDays r)
  /\ (status r = normal
      <-> totalUsedDays r <= totalAllowedDays r
          /\ 5 * totalUsedDays r < 4 * totalAllowedDays r).
Proof.
  intros H.
  pose proof (calculateUnemployment_allowed_pos _ _ _ _ _ _ H) as Hpos.
  apply calculateUnemployment_inv in H. destruct H as (_ & _ & _ & Hd).
  destruct (determineStatus_cases (totalUsedDays r) (totalAllowedDays r)) as (Hv & Hw & Hn).
  pose proof (ratio_integers (totalUsedDays r) (totalAllowedDays r) Hpos) as Hint.
  destruct (Z.lt_ge_cases (totalAllowedDays r) (totalUsedDays r)) as [Hlt | Hge].
  - rewrite (Hv Hlt) in Hd. injection Hd as -> _.
    repeat split; intros; try discriminate; try tauto; try lia.
  - destruct (Z.le_gt_cases (4 * totalAllowedDays r) (5 * totalUsedDays r)) as [Hr | Hr].
    + rewrite (Hw Hge (proj2 Hint Hr)) in Hd. injection Hd as -> _.
      repeat split; intros; try discriminate; try tauto; try lia.
    + assert (Hnr : ~ (8 # 10 <= inject_Z (totalUsedDays r) / inject_Z (totalAllowedDays r))%Q)
        by (rewrite Hint; lia).
      rewrite (Hn Hge Hnr) in Hd. injection Hd as -> _.
      repeat split; intros; try discriminate; try tauto; try lia.
Qed.

(** X16. With no employment and no second period, at a reference date
    inside the first period the total used days are the number of days
    from the period's start to the reference date (both included), out of
    90 allowed: the status is [normal] for the first 71 days, [warning]
    from the 72nd to the 90th day, and [violation] from the 91st day on. *)
Theorem never_employed_first_period_only (now : Date) (optPeriod : EADPeriod.t)
    (referenceDate : Date) (r : CalculationResult) :
  dayOf (EADPeriod.startDate optPeriod) <= dayOf referenceDate
  <= dayOf (EADPeriod.endDate optPeriod) ->
  calculateUnemployment now (Some optPeriod) None [] (Some referenceDate) = Some r ->
  let day := dayOf referenceDate - dayOf (EADPeriod.startDate optPeriod) + 1 in
  totalUsedDays r = day
  /\ totalAllowedDays r = 90
  /\ (status r = normal <-> day < 72)
  /\ (status r = warning <-> 72 <= day <= 90)
  /\ (status r = violation <-> 90 < day).
Proof.
  intros Hin Hr day.
  pose proof (calculateUnemployment_totals _ _ _ _ _ _ Hr) as [Hu Ha].
  cbv zeta in Hu. rewrite accountant_no_employment, reference_day in Hu.
  assert (Hu' : totalUsedDays r = day) by (rewrite Hu; unfold daysInRange, day; lia).
  assert (Ha' : totalAllowedDays r = 90) by exact Ha.
  destruct (status_in_integers _ _ _ _ _ _ Hr) as (Hv & Hw & Hn).
  rewrite Hu', Ha' in Hv, Hw, Hn.
  split; [exact Hu' |]. split; [exact Ha' |].
  split; [rewrite Hn; lia |]. split; [rewrite Hw; lia | rewrite Hv; lia].
Qed.

Lemma never_employed_first_period_only_witness :
  exists r,
    calculateUnemployment 0 (Some Sample.opt) None [] (Some (Sample.day 19598)) = Some r
    /\ totalUsedDays r = 90 /\ status r <> violation.
Proof.
  destruct (calculateUnemployment 0 (Some Sample.opt) None [] (Some (Sample.day 19598)))
    as [r |] eqn:Hr; [| discriminate Hr].
  exists r. split; [reflexivity |].
  destruct (never_employed_first_period_only 0 Sample.opt (Sample.day 19598) r)
    as (Hu & _ & _ & _ & Hv).
  - split; vm_compute; discriminate.
  - exact Hr.
  - split; [exact Hu |]. intros H. apply Hv in H. vm_compute in H. discriminate H.
Defined.

(** X17. With no employment and a second period that starts after the
    first one ends, at a reference date inside the first period the total
    used days are the number of days from the first period's start to the
    reference date (both included), out of 150 allowed: the status is
    [normal] for the first 119 days, [warning] from the 120th to the 150th
    day, and [violation] from the 151st day on; more than 90 used days in
    the first period are not a violation by themselves. *)
Theorem never_employed_with_second_period (now : Date) (optPeriod stemPeriod : EADPeriod.t)
    (referenceDate : Date) (r : CalculationResult) :
  dayOf (EADPeriod.startDate optPeriod) <= dayOf referenceDate
  <= dayOf (EADPeriod.endDate optPeriod) ->
  dayOf (EADPeriod.endDate optPeriod) < dayOf (EADPeriod.startDate stemPeriod) ->
  calculateUnemployment now (Some optPeriod) (Some stemPeriod) [] (Some referenceDate)
  = Some r ->
  let day := dayOf referenceDate - dayOf (EADPeriod.startDate optPeriod) + 1 in
  totalUsedDays r = day
  /\ usedDays (phase1 r) = day
  /\ totalAllowedDays r = 150
  /\ (status r = normal <-> day < 120)
  /\ (status r = warning <-> 120 <= day <= 150)
  /\ (status r = violation <-> 150 < day).
Proof.
  intros Hin Hstem Hr day.
  pose proof (calculateUnemployment_totals _ _ _ _ _ _ Hr) as [Hu Ha].
  cbv zeta in Hu. rewrite !accountant_no_employment, reference_day in Hu.
  assert (Hu' : totalUsedDays r = day) by (rewrite Hu; unfold daysInRange, day; lia).
  assert (Ha' : totalAllowedDays r = 150) by exact Ha.
  assert (H1 : usedDays (phase1 r) = day).
  { pose proof (calculateUnemployment_inv _ _ _ _ _ _ Hr) as (Hp & _).
    cbv zeta in Hp. rewrite Hp, accountant_no_employment, reference_day.
    unfold daysInRange, day. lia. }
  destruct (status_in_integers _ _ _ _ _ _ Hr) as (Hv & Hw & Hn).
  rewrite Hu', Ha' in Hv, Hw, Hn.
  split; [exact Hu' |]. split; [exact H1 |]. split; [exact Ha' |].
  split; [rewrite Hn; lia |]. split; [rewrite Hw; lia | rewrite Hv; lia].
Qed.

Lemma never_employed_with_second_period_witness :
  exists r,
    calculateUnemployment 0 (Some Sample.opt) (Some Sample.stem) []
      (Some (Sample.day 19609)) = Some r
    /\ usedDays (phase1 r) = 101 /\ status r = normal.
Proof.
  destruct (calculateUnemployment 0 (Some Sample.opt) (Some Sample.stem) []
              (Some (Sample.day 19609))) as [r |] eqn:Hr; [| discriminate Hr].
  exists r. split; [reflexivity |].
  destruct (never_employed_with_second_period 0 Sample.opt Sample.stem
              (Sample.day 19609) r) as (_ & H1 & _ & Hn & _).
  - split; vm_compute; discriminate.
  - vm_compute. reflexivity.
  - exact Hr.
  - split; [exact H1 |]. apply Hn. vm_compute. reflexivity.
Defined.

(** ** The duration shown for a job *)

Lemma startOfDay_le_of_days (a b : Date) : dayOf a <= dayOf b -> startOfDay a <= startOfDay b.
Proof.
  intros H. rewrite !startOfDay_dayOf.
  apply Z.mul_le_mono_nonneg_r; [discriminate | exact H].
Qed.

(** A span that lies inside the period is credited all its days. *)
Lemma single_span_employed_days (span : EmploymentSpan.t) (eadPeriod : EADPeriod.t)
    (referenceDate : Date) :
  resolvedWellFormed span referenceDate ->
  dayOf (EADPeriod.startDate eadPeriod) <= dayOf (EmploymentSpan.startDate span) ->
  dayOf (resolvedEnd span referenceDate) <= dayOf (EADPeriod.endDate eadPeriod) ->
  calculateEmployedDays [span] eadPeriod referenceDate
  = dayOf (resolvedEnd span referenceDate) - dayOf (EmploymentSpan.startDate span) + 1
  /\ dayOf (EmploymentSpan.startDate span) <= dayOf (resolvedEnd span referenceDate).
Proof.
  intros Hw Hlo Hhi.
  assert (Hse : dayOf (EmploymentSpan.startDate span)
                <= dayOf (resolvedEnd span referenceDate)).
  { apply dayOf_mono in Hw. unfold normalizeDate in Hw.
    rewrite dayOf_startOfDay in Hw. exact Hw. }
  split; [| exact Hse].
  rewrite calculateEmployedDays_count.
  - rewrite (countDays_ext _
               (fun d => (dayOf (EmploymentSpan.startDate span) <=? d)
                         && (d <=? dayOf (resolvedEnd span referenceDate)))).
    + rewrite countDays_interval. unfold daysInRange. lia.
    + intros d _. unfold employedOn, spanCoversDay. cbn [existsb].
      apply orb_false_r.
  - apply startOfDay_le_of_days. lia.
  - constructor; [left; exact Hw | constructor].
Qed.

Lemma getEmploymentDuration_days (now : Date) (span : EmploymentSpan.t) :
  let n :=
    dayOf (match EmploymentSpan.endDate span with Some e => e | None => now end)
    - dayOf (EmploymentSpan.startDate span) + 1 in
  getEmploymentDuration now span
  = if n <=? 0 then "0 days"%string
    else (numberToString n ++ " day" ++ (if (n =? 1)%Z then "" else "s"))%string.
Proof.
  unfold getEmploymentDuration.
  rewrite differenceInCalendarDays_dayOf.
  destruct (EmploymentSpan.endDate span); rewrite !dayOf_startOfDay; reflexivity.
Qed.

(** X18. The duration [getEmploymentDuration] shows for a validated job is
    written from the number of days the calculator credits for that job
    alone when the job lies inside the period: for a job with an end date
    at every reference date, for an ongoing job that has started with
    today as the reference date; that number is at least 1.  An ongoing job
    that starts after today is shown as "0 days". *)
Theorem duration_label_is_the_credited_days (now : Date) (span : EmploymentSpan.t)
    (eadPeriod : EADPeriod.t) :
  validSpan span ->
  dayOf (EADPeriod.startDate eadPeriod) <= dayOf (EmploymentSpan.startDate span) ->
  (forall e referenceDate,
      EmploymentSpan.endDate span = Some e ->
      dayOf e <= dayOf (EADPeriod.endDate eadPeriod) ->
      let n := calculateEmployedDays [span] eadPeriod referenceDate in
      1 <= n
      /\ getEmploymentDuration now span
         = (numberToString n ++ " day" ++ (if (n =? 1)%Z then "" else "s"))%string)
  /\ (EmploymentSpan.endDate span = None ->
      dayOf (EmploymentSpan.startDate span) <= dayOf now ->
      dayOf now <= dayOf (EADPeriod.endDate eadPeriod) ->
      let n := calculateEmployedDays [span] eadPeriod now in
      1 <= n
      /\ getEmploymentDuration now span
         = (numberToString n ++ " day" ++ (if (n =? 1)%Z then "" else "s"))%string)
  /\ (EmploymentSpan.endDate span = None ->
      dayOf now < dayOf (EmploymentSpan.startDate span) ->
      getEmploymentDuration now span = "0 days"%string).
Proof.
  intros Hv Hlo.
  pose proof (getEmploymentDuration_days now span) as Hlabel. cbv zeta in Hlabel.
  split; [| split].
  - intros e referenceDate He Hhi n.
    assert (Hw : resolvedWellFormed span referenceDate).
    { destruct (validSpan_resolved span referenceDate Hv) as [H | H]; [exact H |].
      congruence. }
    destruct (single_span_employed_days span eadPeriod referenceDate Hw Hlo) as [Hn Hse].
    { unfold resolvedEnd, normalizeDate. rewrite He, dayOf_startOfDay. exact Hhi. }
    unfold resolvedEnd, normalizeDate in Hn, Hse. rewrite He, dayOf_startOfDay in Hn, Hse.
    fold n in Hn. rewrite He in Hlabel. rewrite <- Hn in Hlabel.
    split; [lia |]. rewrite Hlabel.
    destruct (Z.leb_spec n 0); [lia | reflexivity].
  - intros He Hstart Hhi n.
    assert (Hw : resolvedWellFormed span now).
    { unfold resolvedWellFormed, resolvedEnd, normalizeDate. rewrite He.
      pose proof (startOfDay_le_of_days _ _ Hstart). pose proof (startOfDay_le now). lia. }
    destruct (single_span_employed_days span eadPeriod now Hw Hlo) as [Hn Hse].
    { unfold resolvedEnd. rewrite He. exact Hhi. }
    unfold resolvedEnd in Hn, Hse. rewrite He in Hn, Hse.
    fold n in Hn. rewrite He in Hlabel. rewrite <- Hn in Hlabel.
    split; [lia |]. rewrite Hlabel.
    destruct (Z.leb_spec n 0); [lia | reflexivity].
  - intros He Hlt. rewrite Hlabel, He.
    destruct (Z.leb_spec (dayOf now - dayOf (EmploymentSpan.startDate span) + 1) 0);
      [reflexivity | lia].
Qed.

Lemma duration_label_is_the_credited_days_witness :
  getEmploymentDuration 0 (Sample.job 19520 19600) = "81 days"%string
  /\ calculateEmployedDays [Sample.job 19520 19600] Sample.opt (Sample.day 19700) = 81.
Proof.
  destruct (duration_label_is_the_credited_days 0 (Sample.job 19520 19600) Sample.opt)
    as [H _].
  - reflexivity.
  - vm_compute. discriminate.
  - destruct (H (Sample.day 19600) (Sample.day 19700) eq_refl) as [_ Hl].
    + vm_compute. discriminate.
    + split; [rewrite Hl |]; vm_compute; reflexivity.
Defined.

(** ** The date picker *)

(** X19. [selectDate] emits only for a day that is not disabled, and what
    it emits is the start of that day: a normalized date, not before the
    day of [min] nor after the day of [max], with the picker closed
    afterwards; when it emits nothing the state is unchanged.  For a day
    given at the start of the day (as the calendar cells are) it emits
    nothing exactly when the picker is disabled or the day is before the
    day of [min] or after the day of [max]. *)
Theorem selectDate_emits_start_of_day_in_range (props : DatePicker.Props)
    (st : DatePicker.State) (day : Date) :
  (forall v,
      snd (DatePicker.selectDate props st day) = DatePicker.UpdateModelValue v ->
      v = Some (startOfDay day)
      /\ isNormalized (startOfDay day)
      /\ DatePicker.disabled props = false
      /\ (forall m, DatePicker.min props = Some m -> dayOf m <= dayOf day)
      /\ (forall m, DatePicker.max props = Some m -> dayOf day <= dayOf m)
      /\ DatePicker.isOpen (fst (DatePicker.selectDate props st day)) = false
      /\ DatePicker.displayMonth (fst (DatePicker.selectDate props st day))
         = startOfDay day)
  /\ (snd (DatePicker.selectDate props st day) = DatePicker.Nothing ->
      fst (DatePicker.selectDate props st day) = st)
  /\ (isNormalized day ->
      (snd (DatePicker.selectDate props st day) = DatePicker.Nothing
       <-> DatePicker.disabled props = true
           \/ (exists m, DatePicker.min props = Some m /\ dayOf day < dayOf m)
           \/ (exists m, DatePicker.max props = Some m /\ dayOf m < dayOf day))).
Proof.
  unfold DatePicker.selectDate, DatePicker.isDayDisabled, isBefore, isAfter.
  destruct props as [dis mn mx]. cbn [DatePicker.disabled DatePicker.min DatePicker.max].
  assert (Hmin : forall m, day < startOfDay m <-> dayOf day < dayOf m).
  { intros m. rewrite (lt_normalized_dayOf day (startOfDay m) (startOfDay_idem m)).
    rewrite dayOf_startOfDay. reflexivity. }
  assert (Hmax : forall m, isNormalized day -> (startOfDay m < day <-> dayOf m < dayOf day)).
  { intros m Hn. rewrite (lt_normalized_dayOf (startOfDay m) day Hn).
    rewrite dayOf_startOfDay. reflexivity. }
  assert (Hmax' : forall m, ~ startOfDay m < day -> dayOf day <= dayOf m).
  { intros m H. assert (Hle : day <= startOfDay m) by lia.
    apply dayOf_mono in Hle. rewrite dayOf_startOfDay in Hle. exact Hle. }
  destruct dis; cbn [orb].
  { split; [intros v H; discriminate H |]. split; [reflexivity |].
    intros _. split; [intros _; left; reflexivity | reflexivity]. }
  destruct mn as [m |], mx as [M |];
    try destruct (Z.ltb_spec day (startOfDay m)) as [Hm | Hm];
    try destruct (Z.ltb_spec (startOfDay M) day) as [HM | HM];
    cbn [fst snd];
    (split; [intros v H; try discriminate H; injection H as <-;
             repeat split; try reflexivity; try apply startOfDay_idem;
             try (intros m' [= <-]); try (intros m' H'; discriminate H');
             try (apply Hmax'; lia); try (specialize (Hmin m); lia)
            | split; [intros H; try discriminate H; reflexivity |]]);
    intros Hn; (split; [intros H; try discriminate H | intros H]);
    try reflexivity;
    try (right; left; exists m; split; [reflexivity | apply Hmin; exact Hm]);
    try (right; right; exists M; split; [reflexivity | apply (Hmax M Hn); exact HM]);
    try (exfalso; destruct H as [H | [(m' & [= <-] & H) | (m' & [= <-] & H)]];
         try discriminate H; try (apply Hmin in H; lia); try (apply (Hmax _ Hn) in H; lia));
    try (exfalso; destruct H as [H | [(m' & H & _) | (m' & H & _)]]; discriminate H).
Qed.

Lemma selectDate_emits_start_of_day_in_range_witness :
  snd (DatePicker.selectDate
         (DatePicker.mkProps false (Some (Sample.day 10 + 500)) (Some (Sample.day 20)))
         (DatePicker.mkState true (Sample.day 1)) (Sample.day 15 + 3600000))
  = DatePicker.UpdateModelValue (Some (Sample.day 15))
  /\ dayOf (Sample.day 10 + 500) <= dayOf (Sample.day 15 + 3600000).
Proof.
  split; [reflexivity |].
  destruct (selectDate_emits_start_of_day_in_range
              (DatePicker.mkProps false (Some (Sample.day 10 + 500)) (Some (Sample.day 20)))
              (DatePicker.mkState true (Sample.day 1)) (Sample.day 15 + 3600000))
    as [H _].
  destruct (H (Some (Sample.day 15)) eq_refl) as (_ & _ & _ & Hmin & _).
  apply Hmin. reflexivity.
Defined.
